(** * Content analysis engine and follow toggle: a shallow embedding

    Embeds [src/entities/content/content.service.js] (the analysis
    pipeline [performContentAnalysis] and its entry point
    [analyzeContentService]) and [toggleFollowService] of
    [src/entities/interactions/interactions.service.js].

    JavaScript strings are modelled as [string] (sequences of 8-bit code
    units); array lengths as [nat]; the value of [Math.ceil (n / 200)] is
    computed over the rationals, which agrees with the IEEE quotient for
    every array length. *)

From Stdlib Require Import String Ascii List ZArith QArith Qround Lia.
From Stdlib Require Import Sorting.Sorted Sorting.Permutation.
From stdpp Require Import base decidable option list sorting strings pretty gmap.

Local Open Scope string_scope.
Local Open Scope list_scope.

(** ** JavaScript string primitives *)

Module JS.

(** The class [\s] of regular expressions, which is also the set
    stripped by [String.prototype.trim], restricted to 8-bit code
    units: TAB, LF, VT, FF, CR, SPACE and NBSP. *)
Definition is_ws (c : ascii) : bool :=
  match nat_of_ascii c with
  | 9 | 10 | 11 | 12 | 13 | 32 | 160 => true
  | _ => false
  end.

(** [s.split(/\s+/)]: the pieces between maximal whitespace runs. A
    leading or trailing run leaves an empty piece, and the empty
    string splits into one empty piece. [in_sep] records that the
    previous code unit belonged to a separator run. *)
Fixpoint split_go (in_sep : bool) (cur : string) (s : string) : list string :=
  match s with
  | EmptyString => [cur]
  | String c r =>
      if is_ws c then
        if in_sep then split_go true cur r
        else cur :: split_go true EmptyString r
      else split_go false (cur ++ String c EmptyString)%string r
  end.

Definition split_ws (s : string) : list string :=
  split_go false EmptyString s.

(** [s.trimStart()] and [s.trimEnd()]; [trim] is their composition. *)
Fixpoint trimStart (s : string) : string :=
  match s with
  | EmptyString => EmptyString
  | String c r => if is_ws c then trimStart r else s
  end.

Fixpoint trimEnd (s : string) : string :=
  match s with
  | EmptyString => EmptyString
  | String c r =>
      match trimEnd r with
      | EmptyString => if is_ws c then EmptyString else String c EmptyString
      | r' => String c r'
      end
  end.

Definition trim (s : string) : string := trimEnd (trimStart s).

(** [s.toLowerCase()] on the letters A-Z; other code units are kept. *)
Definition lower_ascii (c : ascii) : ascii :=
  let n := nat_of_ascii c in
  if (65 <=? n)%nat && (n <=? 90)%nat then ascii_of_nat (n + 32) else c.

Fixpoint toLowerCase (s : string) : string :=
  match s with
  | EmptyString => EmptyString
  | String c r => String (lower_ascii c) (toLowerCase r)
  end.

(** [arr.includes(x)] on an array of strings. *)
Definition includes (arr : list string) (x : string) : bool :=
  existsb (String.eqb x) arr.

(** [Math.ceil (n / d)] for an array length [n]. *)
Definition Math_ceil_div (n : nat) (d : Z) : Z :=
  Qceiling (inject_Z (Z.of_nat n) / inject_Z d).

(** Every code unit is whitespace: the string is empty or blank. *)
Fixpoint all_ws (s : string) : bool :=
  match s with
  | EmptyString => true
  | String c r => is_ws c && all_ws r
  end.

End JS.

(** ** A state and exception monad

    [async] functions are run to completion: a computation takes the
    store it works on and returns either a value or the thrown error,
    together with the store it leaves behind. *)

Inductive Result (A : Type) : Type :=
| Ok (a : A)
| Throw (message : string).
Arguments Ok {A} a.
Arguments Throw {A} message.

Definition M (S A : Type) : Type := S -> Result A * S.

Definition ret {S A : Type} (a : A) : M S A := fun s => (Ok a, s).

Definition bind {S A B : Type} (c : M S A) (k : A -> M S B) : M S B :=
  fun s =>
    match c s with
    | (Ok a, s') => k a s'
    | (Throw e, s') => (Throw e, s')
    end.

Definition throw {S A : Type} (message : string) : M S A :=
  fun s => (Throw message, s).

Definition get {S : Type} : M S S := fun s => (Ok s, s).

Definition put {S : Type} (s : S) : M S unit := fun _ => (Ok tt, s).

Declare Scope js_scope.
Delimit Scope js_scope with js.
Notation "'let*' x ':=' c 'in' k" := (bind c (fun x => k))
  (at level 10, x name, c at level 100, k at level 200) : js_scope.
Notation "'do*' c 'in' k" := (bind c (fun _ => k))
  (at level 10, c at level 100, k at level 200) : js_scope.

(** ** Third-party collaborators of the content service *)

(** Modelled from the spec: the package [natural] is not part of the
    sources. Its [WordTokenizer] is the tokenizer of section 4.3 and 4.4
    (text to a sequence of words); the empty text has no words. *)
Class Tokenizer : Type := {
  tokenize : string -> list string;
  tokenize_empty : tokenize EmptyString = []
}.

(** Modelled from the spec: [jsdom] and [@mozilla/readability] are not
    part of the sources. Following section 4.1, extraction is a total
    function of the markup that never raises; [reader.parse ()] yields
    [null] when no primary content is identifiable, and otherwise an
    article of which the service reads [textContent]. *)
Class Extractor : Type := {
  readability_parse : string -> option string
}.

(** ** Data model *)

(** A document of the [Category] collection. *)
Record Category : Type := {
  name : string;
  keywords : list string
}.

Record AnalysisResult : Type := {
  wordCount : nat;
  readingTime : Z;
  autoTags : list string;
  suggestedCategory : string
}.

(** ** The term-weight indexer *)

Module TfIdf.

Record TermWeightEntry : Type := {
  term : string;
  weight : nat
}.

(** Modelled from the spec: the table the indexer of the package
    [natural] (not part of the sources) keeps for a document. Section
    4.3: a frequency table of the terms, here with their number of
    occurrences, in the order in which the terms were first met. *)
Definition document : Type := list (string * nat).

Record t : Type := { documents : list document }.

(** Modelled from the spec: [new natural.TfIdf ()] of the package
    [natural], not part of the sources; section 4.5 has each call build
    its own fresh table, so a new instance holds no document. *)
Definition new : t := {| documents := [] |}.

(** Modelled from the spec: counting one more occurrence of a term in
    the frequency table of section 4.3; a term met for the first time is
    added at the end. *)
Fixpoint bump (w : string) (doc : document) : document :=
  match doc with
  | [] => [(w, 1)]
  | (x, c) :: rest =>
      if String.eqb x w then (x, S c) :: rest else (x, c) :: bump w rest
  end.

(** Modelled from the spec: the frequency table of a token sequence
    (section 4.3), built token by token. *)
Definition buildDocument (tokens : list string) : document :=
  fold_left (fun doc w => bump w doc) tokens [].

(** Modelled from the spec: insertion of an entry into a list sorted
    by descending weight, before the first entry whose weight is not
    larger, so that ties keep their order (section 4.3). *)
Fixpoint insert (e : TermWeightEntry) (l : list TermWeightEntry)
  : list TermWeightEntry :=
  match l with
  | [] => [e]
  | x :: rest =>
      if (weight e <? weight x)%nat then x :: insert e rest else e :: x :: rest
  end.

(** Modelled from the spec: the stable sort by descending weight of
    section 4.3. *)
Fixpoint sort (l : list TermWeightEntry) : list TermWeightEntry :=
  match l with
  | [] => []
  | e :: rest => insert e (sort rest)
  end.

(** Modelled from the spec: the entries of a table, the weight of a
    term being its raw frequency (section 4.3). *)
Definition entries (doc : document) : list TermWeightEntry :=
  map (fun p => {| term := fst p; weight := snd p |}) doc.

Section Instance_methods.
Context `{Tokenizer}.

(** Modelled from the spec: [tfidf.addDocument (text)] of the
    package [natural], which is not part of the sources. Section 4.3:
    the text is tokenized into words and a frequency table is built
    for it. *)
Definition addDocument (text : string) (i : t) : t :=
  {| documents := documents i ++ [buildDocument (tokenize text)] |}.

(** Modelled from the spec: [tfidf.listTerms (d)] of the package
    [natural], which is not part of the sources. Section 4.3: with
    one document the inverse document frequency is the same for
    every term, the weight of a term is its raw frequency, terms are
    listed by descending weight and ties keep the order of first
    occurrence. *)
Definition listTerms (d : nat) (i : t) : list TermWeightEntry :=
  match nth_error (documents i) d with
  | Some doc => sort (entries doc)
  | None => []
  end.
End Instance_methods.

End TfIdf.

(** ** The content service *)

Module ContentService.

(** Calls made to the collaborators, in the order they happen. *)
Inductive Event : Type :=
| EvExtract (html : string)
| EvRankTerms (text : string)
| EvFetchCategories
| EvClassify (text : string).

(** What a call of the service can see and change: the module-scope
    indexer instance [TfIdf] (line 10), the [Category] collection of
    the document store, and the calls made so far. *)
Record World : Type := {
  module_TfIdf : TfIdf.t;
  Category_collection : list Category;
  trace : list Event
}.

Definition emit (e : Event) : M World unit :=
  fun w => (Ok tt, {| module_TfIdf := module_TfIdf w;
                      Category_collection := Category_collection w;
                      trace := trace w ++ [e] |}).

Definition Uncategorized : string := "Uncategorized".

Section Service.
Context `{Tokenizer} `{Extractor}.
Local Open Scope js_scope.

(** Lines 19-21: the markup is wrapped in a body element, parsed and
    handed to the readability extractor. These are the runs on which
    the parser throws nothing; [AnalysisCore.parseArticle] has the runs
    on which it throws as well. *)
Definition parseArticle (textBody : string) : M World (option string) :=
  let html := ("<body>" ++ textBody ++ "</body>")%string in
  do* emit (EvExtract html) in
  ret (readability_parse html).

(** Lines 28-30: a fresh indexer per call, one document, the first
    five terms of its listing. *)
Definition rankAutoTags (textContent : string) : M World (list string) :=
  do* emit (EvRankTerms textContent) in
  let tfidf := TfIdf.new in
  let tfidf := TfIdf.addDocument textContent tfidf in
  ret (map TfIdf.term (firstn 5 (TfIdf.listTerms 0 tfidf))).

(** Line 34: [await Category.find ({})]. *)
Definition Category_find : M World (list Category) :=
  do* emit EvFetchCategories in
  let* w := get in
  ret (Category_collection w).

(** Lines 40-45: the number of keywords of a category whose lower
    case form is among the tokens. *)
Definition countMatches (contentTokens : list string) (kws : list string) : nat :=
  fold_left
    (fun currentMatches keyword =>
       if JS.includes contentTokens (JS.toLowerCase keyword)
       then S currentMatches else currentMatches)
    kws 0.

(** Lines 39-50: one round of [categories.forEach], on the pair
    [(maxMatches, suggestedCategory)]. *)
Definition considerCategory (contentTokens : list string)
  (best : nat * string) (cat : Category) : nat * string :=
  let currentMatches := countMatches contentTokens (keywords cat) in
  if (fst best <? currentMatches)%nat then (currentMatches, name cat) else best.

(** Lines 33-51. *)
Definition suggestCategory (textContent : string) (categories : list Category)
  : M World string :=
  if (0 <? length categories)%nat then
    do* emit (EvClassify textContent) in
    let contentTokens := tokenize (JS.toLowerCase textContent) in
    ret (snd (fold_left (considerCategory contentTokens) categories
                (0, Uncategorized)))
  else ret Uncategorized.

(** Lines 17-59. *)
Definition performContentAnalysis (textBody : string) : M World AnalysisResult :=
  let* article := parseArticle textBody in
  let wordCount :=
    match article with
    | Some textContent => length (JS.split_ws textContent)
    | None => 0
    end in
  let readingTime := JS.Math_ceil_div wordCount 200 in
  let textContent :=
    match article with
    | Some textContent => textContent
    | None => EmptyString
    end in
  let* autoTags := rankAutoTags textContent in
  let* categories := Category_find in
  let* suggestedCategory := suggestCategory textContent categories in
  ret {| wordCount := wordCount;
         readingTime := readingTime;
         autoTags := autoTags;
         suggestedCategory := suggestedCategory |}.

(** Lines 208-219. [!textBody] holds of the empty string. *)
Definition analyzeContentService (textBody : string) : M World AnalysisResult :=
  if String.eqb textBody EmptyString
     || (String.length (JS.trim textBody) =? 0)%nat
  then ret {| wordCount := 0;
              readingTime := 0%Z;
              autoTags := [];
              suggestedCategory := Uncategorized |}
  else performContentAnalysis textBody.

End Service.

End ContentService.

(** ** The interactions service *)

Module InteractionsService.

(** A document of the [Follow] collection. The model [Follow] is
    declared outside the sources; its collection is taken as a finite
    map from the [_id] of each stored document to the document, and the
    three operations the service uses act on it as described below. *)
Record Follow : Type := {
  followerId : string;
  followingId : string
}.

Record FollowStatus : Type := { following : bool }.

Definition selfFollowError : string := "Users cannot follow themselves.".

(** The filter [{ followerId, followingId }]. *)
Definition matchesFilter (follower followee : string) (d : Follow) : bool :=
  String.eqb (followerId d) follower && String.eqb (followingId d) followee.

(** [Follow.findOne (filter)]: some stored document that satisfies
    the filter, with its [_id], or [null]. *)
Definition Follow_findOne (follower followee : string)
  : M (gmap positive Follow) (option (positive * Follow)) :=
  fun db =>
    (Ok (List.find (fun p => matchesFilter follower followee (snd p))
           (map_to_list db)), db).

(** [Follow.findByIdAndDelete (id)]. *)
Definition Follow_findByIdAndDelete (id : positive)
  : M (gmap positive Follow) unit :=
  fun db => (Ok tt, delete id db).

(** [Follow.create (doc)]: the document is stored under an [_id]
    that no stored document has. *)
Definition Follow_create (d : Follow) : M (gmap positive Follow) unit :=
  fun db => (Ok tt, <[fresh (dom db) := d]> db).

Local Open Scope js_scope.

(** Lines 39-57. *)
Definition toggleFollowService (follower followee : string)
  : M (gmap positive Follow) FollowStatus :=
  if String.eqb follower followee then throw selfFollowError
  else
    let* existingFollow := Follow_findOne follower followee in
    match existingFollow with
    | Some (id, _) =>
        do* Follow_findByIdAndDelete id in
        ret {| following := false |}
    | None =>
        do* Follow_create {| followerId := follower; followingId := followee |} in
        ret {| following := true |}
    end.

End InteractionsService.

(** ** Notions used to state the properties *)

Module Props.

(** How often a term occurs in a token sequence. *)
Definition occurrences (w : string) (tokens : list string) : nat :=
  length (List.filter (String.eqb w) tokens).

(** Position of the first occurrence of a term (the length of the
    sequence when it does not occur). *)
Fixpoint first_index (w : string) (tokens : list string) : nat :=
  match tokens with
  | [] => 0
  | x :: rest => if String.eqb x w then 0 else S (first_index w rest)
  end.

(** The distinct terms of a token sequence, in the order in which they
    first occur. *)
Definition firsts (tokens : list string) : list string :=
  fold_left (fun acc w => if JS.includes acc w then acc else acc ++ [w])
    tokens [].

(** [a] is ranked before [b]: it occurs more often, or as often and
    earlier. *)
Definition ranks_before (tokens : list string) (a b : string) : Prop :=
  occurrences b tokens < occurrences a tokens
  \/ (occurrences a tokens = occurrences b tokens
      /\ first_index a tokens < first_index b tokens).

(** Order of a listing that is sorted by descending weight and keeps
    the order [R] among entries of equal weight. *)
Definition listed_before (R : TfIdf.TermWeightEntry -> TfIdf.TermWeightEntry -> Prop)
  (a b : TfIdf.TermWeightEntry) : Prop :=
  TfIdf.weight b < TfIdf.weight a
  \/ (TfIdf.weight a = TfIdf.weight b /\ R a b).

(** The non-empty whitespace-delimited tokens of a text. *)
Definition nonEmptyTokens (text : string) : list string :=
  List.filter (fun piece => negb (String.eqb piece EmptyString))
    (JS.split_ws text).

(** The first code unit of a text is whitespace. *)
Definition starts_ws (s : string) : bool :=
  match s with
  | EmptyString => false
  | String c _ => JS.is_ws c
  end.

(** The last code unit of a text is whitespace. *)
Fixpoint ends_ws (s : string) : bool :=
  match s with
  | EmptyString => false
  | String c EmptyString => JS.is_ws c
  | String _ r => ends_ws r
  end.

(** The number of empty pieces among the pieces of a split. *)
Definition emptyPieces (pieces : list string) : nat :=
  length (List.filter (String.eqb EmptyString) pieces).

(** The result returned for a text without content. *)
Definition defaults : AnalysisResult :=
  {| wordCount := 0;
     readingTime := 0%Z;
     autoTags := [];
     suggestedCategory := ContentService.Uncategorized |}.

Section With_collaborators.
Context `{Tokenizer} `{Extractor}.

(** The text the pipeline works on: [article.textContent], or the
    empty string when there is no article. *)
Definition extractedText (textBody : string) : string :=
  match readability_parse ("<body>" ++ textBody ++ "</body>")%string with
  | Some textContent => textContent
  | None => EmptyString
  end.

(** The keyword-presence score of a category against a token
    sequence: its keywords whose lower case form is a token. *)
Definition score (tokens : list string) (cat : Category) : nat :=
  length (List.filter (fun k => bool_decide (JS.toLowerCase k ∈ tokens))
            (keywords cat)).

(** The world after analysing each of a list of markups in turn. *)
Definition after_calls (markups : list string) (w : ContentService.World)
  : ContentService.World :=
  fold_left (fun w m => snd (ContentService.analyzeContentService m w))
    markups w.
End With_collaborators.

End Props.

(** ** Concrete collaborators, to run the service on examples *)

Module Sample.

Definition is_word_char (c : ascii) : bool :=
  let n := nat_of_ascii c in
  ((48 <=? n) && (n <=? 57) || (65 <=? n) && (n <=? 90)
   || (97 <=? n) && (n <=? 122) || (n =? 95))%nat.

Definition flush (cur : string) : list string :=
  match cur with
  | EmptyString => []
  | _ => [cur]
  end.

(** Maximal runs of letters, digits and underscores. *)
Fixpoint words_go (cur : string) (s : string) : list string :=
  match s with
  | EmptyString => flush cur
  | String c r =>
      if is_word_char c then words_go (cur ++ String c EmptyString)%string r
      else flush cur ++ words_go EmptyString r
  end.

#[export] Instance wordTokenizer : Tokenizer :=
  {| tokenize := words_go EmptyString; tokenize_empty := eq_refl |}.

(** An extractor for markup without elements: the text inside the
    body wrapper, and no article when that text is blank. *)
#[export] Instance plainExtractor : Extractor :=
  {| readability_parse := fun html =>
       let inner := String.substring 6 (String.length html - 13) html in
       if JS.all_ws inner then None else Some inner |}.

Definition emptyWorld (categories : list Category) : ContentService.World :=
  {| ContentService.module_TfIdf := TfIdf.new;
     ContentService.Category_collection := categories;
     ContentService.trace := [] |}.

Definition taxonomy : list Category :=
  [ {| name := "Animals"; keywords := ["fox"; "dog"] |};
    {| name := "Sports"; keywords := ["runs"] |} ].

Definition foxText : string :=
  "The quick brown fox jumps over the lazy dog. The fox runs fast.".

(** Ten times "apple" among fifty words, every other word once. *)
Definition appleText : string :=
  "w01 w02 apple w03 w04 w05 apple w06 w07 w08 apple w09 w10 w11 apple w12 w13 w14 apple w15 w16 w17 apple w18 w19 w20 apple w21 w22 w23 apple w24 w25 w26 apple w27 w28 w29 apple w30 w31 w32 w33 w34 w35 w36 w37 w38 w39 w40".

Definition alice_bob : InteractionsService.Follow :=
  {| InteractionsService.followerId := "alice";
     InteractionsService.followingId := "bob" |}.

Definition carol_alice : InteractionsService.Follow :=
  {| InteractionsService.followerId := "carol";
     InteractionsService.followingId := "alice" |}.

(** A markup of any given length. *)
Fixpoint letters (n : nat) : string :=
  match n with
  | 0 => EmptyString
  | S n => String "a" (letters n)
  end.

End Sample.

Import Sample.

(** ** The document store of the services *)

Module Schema.

(** The enumeration of [status] in the content schema. *)
Inductive Status : Type := draft | published | archived.

Definition Status_eqb (a b : Status) : bool :=
  match a, b with
  | draft, draft | published, published | archived, archived => true
  | _, _ => false
  end.

Record Metadata : Type := {
  seoTitle : option string;
  metaDescription : option string
}.

(** A document of the [Content] collection, after the content schema
    (the source file of the interactions service also holds the analytics
    service, lines 117-145, and the content schema, lines 146-204).
    The fields [readabilityScore] and [seoScore] of [optimization] are
    never read or written by the services and are left out. [createdAt]
    is the time stamp that the schema option [timestamps] sets when a
    document is created. The other time stamp of that option,
    [updatedAt], which the mapper rewrites whenever a content is
    updated, is not part of the model: what is stated of a content
    document is stated of the fields listed here. Counters are
    JavaScript numbers that [$inc] moves both ways. *)
Record Content : Type := {
  title : string;
  body : string;
  author : string;
  featuredImage : option string;
  category : string;
  tags : list string;
  autoTags : list string;
  optimization_wordCount : nat;
  optimization_readingTime : Z;
  metadata : option Metadata;
  viewsCount : Z;
  likesCount : Z;
  commentsCount : Z;
  status : Status;
  createdAt : N
}.

(** A document of the [Like] collection. *)
Record Like : Type := {
  like_userId : string;
  like_contentId : positive
}.

(** A document of the [Comment] collection. *)
Record Comment : Type := {
  comment_userId : string;
  comment_contentId : positive;
  comment_text : string;
  comment_parentId : option positive
}.

(** The fields of a [User] document that the services select when they
    populate a reference. *)
Record User : Type := {
  user_name : string;
  user_username : string;
  user_profileImage : option string
}.

(** The collections the services work on, each a finite map from the
    [_id] of a document to the document, with the world of the analysis
    engine and the clock read by [Date.now ()]. *)
Record Db : Type := {
  Content_collection : gmap positive Content;
  Like_collection : gmap positive Like;
  Comment_collection : gmap positive Comment;
  User_collection : gmap string User;
  analysis : ContentService.World;
  now : N
}.

Definition with_contents (f : gmap positive Content -> gmap positive Content)
  (db : Db) : Db :=
  {| Content_collection := f (Content_collection db);
     Like_collection := Like_collection db;
     Comment_collection := Comment_collection db;
     User_collection := User_collection db;
     analysis := analysis db;
     now := now db |}.

Definition with_likes (f : gmap positive Like -> gmap positive Like)
  (db : Db) : Db :=
  {| Content_collection := Content_collection db;
     Like_collection := f (Like_collection db);
     Comment_collection := Comment_collection db;
     User_collection := User_collection db;
     analysis := analysis db;
     now := now db |}.

Definition with_comments (f : gmap positive Comment -> gmap positive Comment)
  (db : Db) : Db :=
  {| Content_collection := Content_collection db;
     Like_collection := Like_collection db;
     Comment_collection := f (Comment_collection db);
     User_collection := User_collection db;
     analysis := analysis db;
     now := now db |}.

Definition with_analysis (f : ContentService.World -> ContentService.World)
  (db : Db) : Db :=
  {| Content_collection := Content_collection db;
     Like_collection := Like_collection db;
     Comment_collection := Comment_collection db;
     User_collection := User_collection db;
     analysis := f (analysis db);
     now := now db |}.

(** Field updates of a content document. *)
Definition inc_views (k : Z) (c : Content) : Content :=
  {| title := title c; body := body c; author := author c;
     featuredImage := featuredImage c; category := category c;
     tags := tags c; autoTags := autoTags c;
     optimization_wordCount := optimization_wordCount c;
     optimization_readingTime := optimization_readingTime c;
     metadata := metadata c;
     viewsCount := viewsCount c + k;
     likesCount := likesCount c;
     commentsCount := commentsCount c;
     status := status c; createdAt := createdAt c |}.

Definition inc_likes (k : Z) (c : Content) : Content :=
  {| title := title c; body := body c; author := author c;
     featuredImage := featuredImage c; category := category c;
     tags := tags c; autoTags := autoTags c;
     optimization_wordCount := optimization_wordCount c;
     optimization_readingTime := optimization_readingTime c;
     metadata := metadata c;
     viewsCount := viewsCount c;
     likesCount := likesCount c + k;
     commentsCount := commentsCount c;
     status := status c; createdAt := createdAt c |}.

Definition inc_comments (k : Z) (c : Content) : Content :=
  {| title := title c; body := body c; author := author c;
     featuredImage := featuredImage c; category := category c;
     tags := tags c; autoTags := autoTags c;
     optimization_wordCount := optimization_wordCount c;
     optimization_readingTime := optimization_readingTime c;
     metadata := metadata c;
     viewsCount := viewsCount c;
     likesCount := likesCount c;
     commentsCount := commentsCount c + k;
     status := status c; createdAt := createdAt c |}.

Definition set_text (text : string) (c : Comment) : Comment :=
  {| comment_userId := comment_userId c;
     comment_contentId := comment_contentId c;
     comment_text := text;
     comment_parentId := comment_parentId c |}.

End Schema.

(** ** Operations of the object-document mapper *)

Module Mongo.
Import Schema.

Section Collection.
Context {A : Type}.

(** [Model.create (doc)]: the document is stored under an [_id] that no
    stored document has; the [_id] is returned with the document. *)
Definition create (d : A) (m : gmap positive A) : positive * gmap positive A :=
  let id := fresh (dom m) in (id, <[id := d]> m).

(** [Model.findOne (filter)]: some stored document satisfying the
    filter, with its [_id], or [null]. *)
Definition findOne (filter : A -> bool) (m : gmap positive A)
  : option (positive * A) :=
  List.find (fun p => filter (snd p)) (map_to_list m).

(** [Model.find (filter)]: the stored documents satisfying the filter,
    with their [_id], in the order of the store. *)
Definition find (filter : positive -> A -> bool) (m : gmap positive A)
  : list (positive * A) :=
  List.filter (fun p => filter (fst p) (snd p)) (map_to_list m).

(** [Model.countDocuments (filter)]. *)
Definition countDocuments (filter : positive -> A -> bool) (m : gmap positive A)
  : nat :=
  length (find filter m).

(** Insertion into a sorted list, after the documents that come
    strictly before the new one. *)
Fixpoint insertBy (precedes : A -> A -> bool) (e : A) (l : list A) : list A :=
  match l with
  | [] => [e]
  | x :: rest =>
      if precedes x e then x :: insertBy precedes e rest else e :: x :: rest
  end.

(** [query.sort (spec)]: the documents ordered by the strict order
    [precedes] of the sort specification; documents that the
    specification does not distinguish stay in the order of the store. *)
Fixpoint sortBy (precedes : A -> A -> bool) (l : list A) : list A :=
  match l with
  | [] => []
  | e :: rest => insertBy precedes e (sortBy precedes rest)
  end.

End Collection.

(** [populate ('author', 'name username')] and
    [populate ('userId', 'name username profileImage')]: the reference
    is replaced by the selected fields of the user it names, or by
    [null] when there is no such user. *)
Definition populate (users : gmap string User) (ref : string) : option User :=
  users !! ref.

End Mongo.

(** ** Likes and comments of the interactions service *)

Module LikesAndComments.
Import Schema.

Record LikeStatus : Type := { liked : bool }.

Definition likeFilter (userId : string) (contentId : positive) (l : Like) : bool :=
  String.eqb (like_userId l) userId && Pos.eqb (like_contentId l) contentId.

(** [Content.findByIdAndUpdate (contentId, { $inc: { likesCount: k } })]:
    nothing happens when no content has this [_id]. *)
Definition Content_incLikes (contentId : positive) (k : Z) : M Db unit :=
  fun db => (Ok tt, with_contents (alter (inc_likes k) contentId) db).

Definition Content_incComments (contentId : positive) (k : Z) : M Db unit :=
  fun db => (Ok tt, with_contents (alter (inc_comments k) contentId) db).

Definition Like_findOne (userId : string) (contentId : positive)
  : M Db (option (positive * Like)) :=
  fun db => (Ok (Mongo.findOne (likeFilter userId contentId) (Like_collection db)), db).

Definition Like_findByIdAndDelete (id : positive) : M Db unit :=
  fun db => (Ok tt, with_likes (delete id) db).

Definition Like_create (l : Like) : M Db unit :=
  fun db => (Ok tt, with_likes (fun m => snd (Mongo.create l m)) db).

Local Open Scope js_scope.

(** Interactions service, lines 14-30. *)
Definition toggleLikeService (userId : string) (contentId : positive)
  : M Db LikeStatus :=
  let* existingLike := Like_findOne userId contentId in
  match existingLike with
  | Some (id, _) =>
      do* Like_findByIdAndDelete id in
      do* Content_incLikes contentId (-1) in
      ret {| liked := false |}
  | None =>
      do* Like_create {| like_userId := userId; like_contentId := contentId |} in
      do* Content_incLikes contentId 1 in
      ret {| liked := true |}
  end.

Definition Comment_create (c : Comment) : M Db (positive * Comment) :=
  fun db =>
    let (id, m) := Mongo.create c (Comment_collection db) in
    (Ok (id, c), with_comments (fun _ => m) db).

(** Interactions service, lines 67-72. *)
Definition addCommentService (userId : string) (contentId : positive)
  (text : string) (parentId : option positive) : M Db (positive * Comment) :=
  let* comment :=
    Comment_create {| comment_userId := userId;
                      comment_contentId := contentId;
                      comment_text := text;
                      comment_parentId := parentId |} in
  do* Content_incComments contentId 1 in
  ret comment.

(** A comment with its author reference populated. *)
Record PopulatedComment : Type := {
  pc_id : positive;
  pc_user : option User;
  pc_contentId : positive;
  pc_text : string;
  pc_parentId : option positive
}.

Definition populateComment (users : gmap string User) (p : positive * Comment)
  : PopulatedComment :=
  {| pc_id := fst p;
     pc_user := Mongo.populate users (comment_userId (snd p));
     pc_contentId := comment_contentId (snd p);
     pc_text := comment_text (snd p);
     pc_parentId := comment_parentId (snd p) |}.

(** Interactions service, lines 79-83. *)
Definition getCommentsService (contentId : positive)
  : M Db (list PopulatedComment) :=
  fun db =>
    (Ok (map (populateComment (User_collection db))
           (Mongo.find (fun _ c => Pos.eqb (comment_contentId c) contentId)
              (Comment_collection db))), db).

(** [Comment.findOne ({ _id: commentId, userId })]. *)
Definition Comment_findOwned (userId : string) (commentId : positive)
  : M Db (option Comment) :=
  fun db =>
    (Ok match Comment_collection db !! commentId with
        | Some c => if String.eqb (comment_userId c) userId then Some c else None
        | None => None
        end, db).

(** [comment.save ()] of a document loaded from the store. *)
Definition Comment_save (commentId : positive) (c : Comment) : M Db unit :=
  fun db => (Ok tt, with_comments (insert commentId c) db).

Definition Comment_findByIdAndDelete (commentId : positive) : M Db unit :=
  fun db => (Ok tt, with_comments (delete commentId) db).

Definition notAuthorizedToEdit : string :=
  "Comment not found or user not authorized to edit.".

Definition notAuthorizedToDelete : string :=
  "Comment not found or user not authorized to delete.".

(** Interactions service, lines 92-100. *)
Definition updateCommentService (userId : string) (commentId : positive)
  (text : string) : M Db (positive * Comment) :=
  let* comment := Comment_findOwned userId commentId in
  match comment with
  | None => throw notAuthorizedToEdit
  | Some c =>
      let c' := set_text text c in
      do* Comment_save commentId c' in
      ret (commentId, c')
  end.

(** Interactions service, lines 107-115. *)
Definition deleteCommentService (userId : string) (commentId : positive)
  : M Db unit :=
  let* comment := Comment_findOwned userId commentId in
  match comment with
  | None => throw notAuthorizedToDelete
  | Some c =>
      do* Comment_findByIdAndDelete commentId in
      Content_incComments (comment_contentId c) (-1)
  end.

End LikesAndComments.

(** ** Collaborators of the content store services *)

(** Modelled from the spec: [lib/cloudinaryUpload.js] is not part of the
    sources; section 1 lists the media upload to an external store as an
    outside collaborator. The upload of a file path under a public
    identifier into a folder yields the [secure_url] of its result, or
    nothing when there is no result or no such field. *)
Class Uploader : Type := {
  cloudinaryUpload : string -> string -> string -> option string
}.

(** Modelled from the spec: the document store is an outside
    collaborator (section 1). [textMatches search doc] stands for the
    [$text] operator of the store over the text index that the content
    schema declares on title, body, tags, autoTags and category. *)
Class TextIndex : Type := {
  textMatches : string -> Schema.Content -> bool
}.

(** ** The content store services *)

Module ContentCrud.
Import Schema.

(** The selected fields of a populated author. *)
Record Author : Type := {
  author_name : string;
  author_username : string
}.

(** [populate ('author', 'name username')]. *)
Definition populateAuthor (users : gmap string User) (ref : string)
  : option Author :=
  (fun u => {| author_name := user_name u; author_username := user_username u |})
    <$> Mongo.populate users ref.

(** A content document with its [_id] and its populated author. *)
Record PopulatedContent : Type := {
  pop_id : positive;
  pop_doc : Content;
  pop_author : option Author
}.

Definition populateContent (users : gmap string User) (p : positive * Content)
  : PopulatedContent :=
  {| pop_id := fst p;
     pop_doc := snd p;
     pop_author := populateAuthor users (author (snd p)) |}.

(** The authenticated user of a request. *)
Record RequestUser : Type := {
  user_id : string;
  user_role : string
}.

Definition contentNotFound : string := "Content not found".

Definition authorizationFailed : string :=
  "Authorization failed: You are not the author or an admin.".

Definition uploadFailed : string :=
  "Cloudinary upload failed during content creation.".

Local Open Scope js_scope.

(** [Content.findById (contentId)]. *)
Definition Content_findById (contentId : positive) : M Db (option Content) :=
  fun db => (Ok (Content_collection db !! contentId), db).

(** [Content.findByIdAndUpdate (contentId, update, { new: true })]: the
    stored document is replaced by its update and the new document is
    returned; [null] is returned, and nothing changes, when no content
    has this [_id]. *)
Definition Content_findByIdAndUpdate (contentId : positive)
  (update : Content -> Content) : M Db (option Content) :=
  fun db =>
    (Ok (update <$> Content_collection db !! contentId),
     with_contents (alter update contentId) db).

(** [query.populate ('author', 'name username')] on one document. *)
Definition populateOne (contentId : positive) (c : option Content)
  : M Db (option PopulatedContent) :=
  fun db =>
    (Ok ((fun d => populateContent (User_collection db) (contentId, d)) <$> c),
     db).

(** Content service, lines 144-155. *)
Definition getContentByIdService (contentId : positive) : M Db PopulatedContent :=
  let* updated := Content_findByIdAndUpdate contentId (inc_views 1) in
  let* content := populateOne contentId updated in
  match content with
  | None => throw contentNotFound
  | Some c => ret c
  end.

(** The test of lines 172 and 194:
    [content.author.toString () !== user.id && user.role !== 'admin']. *)
Definition notAllowed (c : Content) (user : RequestUser) : bool :=
  negb (String.eqb (author c) (user_id user))
  && negb (String.eqb (user_role user) "admin").

(** Content service, lines 164-179. [updateData] is the effect of the
    update document on the stored document. *)
Definition updateContentService (contentId : positive)
  (updateData : Content -> Content) (user : RequestUser)
  : M Db (option Content) :=
  let* content := Content_findById contentId in
  match content with
  | None => throw contentNotFound
  | Some c =>
      if notAllowed c user then throw authorizationFailed
      else Content_findByIdAndUpdate contentId updateData
  end.

(** Content service, lines 186-201. *)
Definition deleteContentService (contentId : positive) (user : RequestUser)
  : M Db unit :=
  let* content := Content_findById contentId in
  match content with
  | None => throw contentNotFound
  | Some c =>
      if notAllowed c user then throw authorizationFailed
      else fun db => (Ok tt, with_contents (delete contentId) db)
  end.

(** [{ field: { $in: values } }] on an array field. *)
Definition anyIn (field values : list string) : bool :=
  existsb (fun x => JS.includes values x) field.

(** The filter of lines 232-239. *)
Definition relatedFilter (contentId : positive) (current : Content)
  (id : positive) (c : Content) : bool :=
  negb (Pos.eqb id contentId)
  && Status_eqb (status c) published
  && (String.eqb (category c) (category current)
      || anyIn (tags c) (tags current)
      || anyIn (autoTags c) (autoTags current)).

(** Content service, lines 226-243. *)
Definition getRelatedContentService (contentId : positive)
  : M Db (list PopulatedContent) :=
  let* currentContent := Content_findById contentId in
  match currentContent with
  | None => throw contentNotFound
  | Some current =>
      fun db =>
        (Ok (map (populateContent (User_collection db))
               (firstn 5 (Mongo.find (relatedFilter contentId current)
                            (Content_collection db)))), db)
  end.

(** The options of a listing request. [page] and [limit] are positive
    integers when they are given. *)
Record QueryOptions : Type := {
  page : option positive;
  limit : option positive;
  search : option string
}.

Record PaginationInfo : Type := {
  totalItems : nat;
  totalPages : Z;
  currentPage : positive
}.

Record Listing : Type := {
  content : list PopulatedContent;
  paginationInfo : PaginationInfo
}.

(** [sort ({ createdAt: -1 })]: the newer document first. *)
Definition newerFirst (a b : positive * Content) : bool :=
  (createdAt (snd b) <? createdAt (snd a))%N.

Section Listing.
Context `{TextIndex}.

(** The query of lines 116-120. *)
Definition listingQuery (searchText : string) (id : positive) (c : Content)
  : bool :=
  Status_eqb (status c) published
  && (if String.eqb searchText EmptyString then true
      else textMatches searchText c).

(** Content service, lines 112-137. *)
Definition getAllContentService (queryOptions : QueryOptions) : M Db Listing :=
  let page := default 1%positive (page queryOptions) in
  let limit := default 10%positive (limit queryOptions) in
  let search := default EmptyString (search queryOptions) in
  let skip := (Pos.to_nat page - 1) * Pos.to_nat limit in
  fun db =>
    let query := listingQuery search in
    let content :=
      firstn (Pos.to_nat limit)
        (skipn skip
           (Mongo.sortBy newerFirst (Mongo.find query (Content_collection db)))) in
    let total := Mongo.countDocuments query (Content_collection db) in
    (Ok {| content := map (populateContent (User_collection db)) content;
           paginationInfo :=
             {| totalItems := total;
                totalPages := JS.Math_ceil_div total (Zpos limit);
                currentPage := page |} |}, db).

End Listing.

(** The body of a creation request. *)
Record ContentData : Type := {
  cd_title : option string;
  cd_body : option string;
  cd_tags : option (list string);
  cd_status : option string;
  cd_metadata : option Metadata
}.

(** The file of a creation request. *)
Record UploadedFile : Type := { file_path : string }.

(** The cast of a status to the enumeration of the schema; an absent
    status takes the default. *)
Definition castStatus (s : option string) : option Status :=
  match s with
  | None => Some draft
  | Some s =>
      if String.eqb s "draft" then Some draft
      else if String.eqb s "published" then Some published
      else if String.eqb s "archived" then Some archived
      else None
  end.

(** The validation of the schema when a new content is saved: a title
    that is not empty once trimmed, a body that is not empty, a status of
    the enumeration. *)
Definition validContent (data : ContentData) : bool :=
  negb (String.eqb (JS.trim (default EmptyString (cd_title data))) EmptyString)
  && negb (String.eqb (default EmptyString (cd_body data)) EmptyString)
  && match castStatus (cd_status data) with Some _ => true | None => false end.

(** Running the analysis engine on its part of the store. *)
Definition liftAnalysis {A : Type} (c : M ContentService.World A) : M Db A :=
  fun db =>
    let (r, w') := c (analysis db) in
    (r, with_analysis (fun _ => w') db).

Section Creation.
Context `{Tokenizer} `{Extractor} `{Uploader}.

(** The message of the validation error that the mapper raises when a
    document breaks the schema; the text is the mapper's own. *)
Variable validationMessage : ContentData -> string.

(** Lines 71-82: the optional upload of the featured image. *)
Definition uploadFeaturedImage (authorId : string) (file : option UploadedFile)
  : M Db (option string) :=
  match file with
  | None => ret None
  | Some f =>
      fun db =>
        match cloudinaryUpload (file_path f)
                ("content_" ++ authorId ++ "_" ++ pretty (now db))%string
                "content_images" with
        | Some url =>
            if String.eqb url EmptyString then (Throw uploadFailed, db)
            else (Ok (Some url), db)
        | None => (Throw uploadFailed, db)
        end
  end.

(** Lines 87-103: the new document and its [save ()]. *)
Definition saveNewContent (data : ContentData) (authorId : string)
  (featuredImageUrl : option string) (a : AnalysisResult)
  : M Db (positive * Content) :=
  let '(Build_AnalysisResult a_wordCount a_readingTime a_autoTags a_category) := a in
  fun db =>
    match castStatus (cd_status data) with
    | Some st =>
        if validContent data then
          let doc :=
            {| title := JS.trim (default EmptyString (cd_title data));
               body := default EmptyString (cd_body data);
               author := authorId;
               featuredImage := featuredImageUrl;
               category := a_category;
               tags := default [] (cd_tags data);
               autoTags := a_autoTags;
               optimization_wordCount := a_wordCount;
               optimization_readingTime := a_readingTime;
               metadata := cd_metadata data;
               viewsCount := 0;
               likesCount := 0;
               commentsCount := 0;
               status := st;
               createdAt := now db |} in
          let (id, m) := Mongo.create doc (Content_collection db) in
          (Ok (id, doc), with_contents (fun _ => m) db)
        else (Throw (validationMessage data), db)
    | None => (Throw (validationMessage data), db)
    end.

(** Content service, lines 68-105. A body that is absent is analysed as
    the text that the template literal makes of it. *)
Definition createContentService (contentData : ContentData) (authorId : string)
  (file : option UploadedFile) : M Db (positive * Content) :=
  let* featuredImageUrl := uploadFeaturedImage authorId file in
  let* a :=
    liftAnalysis
      (ContentService.performContentAnalysis
         (default "undefined" (cd_body contentData))) in
  saveNewContent contentData authorId featuredImageUrl a.

End Creation.

End ContentCrud.

(** ** The analytics service *)

Module AnalyticsService.
Import Schema.

(** The fields selected by the analytics of one content. *)
Record ContentAnalytics : Type := {
  an_id : positive;
  an_title : string;
  an_viewsCount : Z;
  an_likesCount : Z;
  an_commentsCount : Z
}.

(** Analytics service, lines 123-129 of the file of the interactions
    service. *)
Definition getContentAnalyticsService (contentId : positive)
  : M Db ContentAnalytics :=
  fun db =>
    match Content_collection db !! contentId with
    | Some c =>
        (Ok {| an_id := contentId;
               an_title := title c;
               an_viewsCount := viewsCount c;
               an_likesCount := likesCount c;
               an_commentsCount := commentsCount c |}, db)
    | None => (Throw ContentCrud.contentNotFound, db)
    end.

(** The fields selected for a trending content. *)
Record TrendingContent : Type := {
  tr_id : positive;
  tr_title : string;
  tr_author : option ContentCrud.Author;
  tr_viewsCount : Z;
  tr_likesCount : Z;
  tr_commentsCount : Z
}.

(** [sort ({ viewsCount: -1, likesCount: -1 })]: more views first, and
    among equal views more likes first. *)
Definition moreTrending (a b : positive * Content) : bool :=
  (viewsCount (snd b) <? viewsCount (snd a))%Z
  || ((viewsCount (snd a) =? viewsCount (snd b))%Z
      && (likesCount (snd b) <? likesCount (snd a))%Z).

Definition selectTrending (users : gmap string User) (p : positive * Content)
  : TrendingContent :=
  {| tr_id := fst p;
     tr_title := title (snd p);
     tr_author := ContentCrud.populateAuthor users (author (snd p));
     tr_viewsCount := viewsCount (snd p);
     tr_likesCount := likesCount (snd p);
     tr_commentsCount := commentsCount (snd p) |}.

(** Analytics service, lines 135-145 of the file of the interactions
    service. *)
Definition getTrendingService : M Db (list TrendingContent) :=
  fun db =>
    (Ok (map (selectTrending (User_collection db))
           (firstn 5
              (Mongo.sortBy moreTrending
                 (Mongo.find (fun _ c => Status_eqb (status c) published)
                    (Content_collection db))))), db).

End AnalyticsService.

(** ** Notions used to state the properties of the store *)

Module StoreProps.
Import Schema.

(** The number of likes stored for a content. *)
Definition likesFor (contentId : positive) (likes : gmap positive Like) : nat :=
  Mongo.countDocuments (fun _ l => Pos.eqb (like_contentId l) contentId) likes.

(** The number of comments stored for a content. *)
Definition commentsFor (contentId : positive) (comments : gmap positive Comment)
  : nat :=
  Mongo.countDocuments (fun _ c => Pos.eqb (comment_contentId c) contentId) comments.

(** The denormalized like counter of every stored content is the number
    of likes stored for it. *)
Definition likes_counted (db : Db) : Prop :=
  forall id c,
    Content_collection db !! id = Some c ->
    likesCount c = Z.of_nat (likesFor id (Like_collection db)).

(** The denormalized comment counter of every stored content is the
    number of comments stored for it. *)
Definition comments_counted (db : Db) : Prop :=
  forall id c,
    Content_collection db !! id = Some c ->
    commentsCount c = Z.of_nat (commentsFor id (Comment_collection db)).

(** A like of the content by the user is stored. *)
Definition has_liked (db : Db) (userId : string) (contentId : positive) : Prop :=
  exists id l,
    Like_collection db !! id = Some l
    /\ like_userId l = userId /\ like_contentId l = contentId.

(** No user has two likes stored for one content. *)
Definition likes_unique (db : Db) : Prop :=
  forall i j li lj,
    Like_collection db !! i = Some li ->
    Like_collection db !! j = Some lj ->
    like_userId li = like_userId lj ->
    like_contentId li = like_contentId lj ->
    i = j.

(** A follow of [followee] by [follower] is stored. *)
Definition is_following (db : gmap positive InteractionsService.Follow)
  (follower followee : string) : Prop :=
  exists id d,
    db !! id = Some d
    /\ InteractionsService.followerId d = follower
    /\ InteractionsService.followingId d = followee.

(** No pair of users has two follows stored. *)
Definition follows_unique (db : gmap positive InteractionsService.Follow) : Prop :=
  forall i j di dj,
    db !! i = Some di ->
    db !! j = Some dj ->
    InteractionsService.followerId di = InteractionsService.followerId dj ->
    InteractionsService.followingId di = InteractionsService.followingId dj ->
    i = j.


(** Two content documents agree on every field of the model other than
    the three counters. *)
Definition same_content_fields (a b : Content) : Prop :=
  title a = title b /\ body a = body b /\ author a = author b
  /\ featuredImage a = featuredImage b /\ category a = category b
  /\ tags a = tags b /\ autoTags a = autoTags b
  /\ optimization_wordCount a = optimization_wordCount b
  /\ optimization_readingTime a = optimization_readingTime b
  /\ metadata a = metadata b /\ status a = status b
  /\ createdAt a = createdAt b.

(** Two content documents agree on every field of the model, counters
    included; the time stamp [updatedAt] is not among them. *)
Definition same_but_updatedAt (a b : Content) : Prop :=
  same_content_fields a b
  /\ viewsCount a = viewsCount b
  /\ likesCount a = likesCount b
  /\ commentsCount a = commentsCount b.

(** Two content collections hold documents under the same identifiers,
    and these agree on every field of the model. *)
Definition contents_agree (m2 m : gmap positive Content) : Prop :=
  forall k, option_Forall2 same_but_updatedAt (m2 !! k) (m !! k).

(** A category with every keyword replaced by its lower-case form. *)
Definition lowerKeywords (cat : Category) : Category :=
  {| name := name cat; keywords := map JS.toLowerCase (keywords cat) |}.

(** A content with [va] views and [la] likes is not behind one with
    [vb] views and [lb] likes in the trending order. *)
Definition not_behind (va la vb lb : Z) : Prop :=
  (vb < va)%Z \/ (vb = va /\ (lb <= la)%Z).

End StoreProps.

(** Two documents built from one another agree on the fields that the
    update does not touch. *)
Ltac same_fields :=
  unfold StoreProps.same_content_fields; cbn;
  repeat (split; [reflexivity|]); reflexivity.

(** ** A concrete store, to run the services on examples *)

Module SampleStore.
Import Schema.

Definition helloContent : Content :=
  {| title := "Hello"; body := "hello world"; author := "alice";
     featuredImage := None; category := "Uncategorized";
     tags := ["greeting"]; autoTags := ["hello"; "world"];
     optimization_wordCount := 2; optimization_readingTime := 1;
     metadata := None;
     viewsCount := 3; likesCount := 1; commentsCount := 1;
     status := published; createdAt := 10 |}.

Definition aliceLikesHello : Like :=
  {| like_userId := "alice"; like_contentId := 1 |}.

Definition aliceOnHello : Comment :=
  {| comment_userId := "alice"; comment_contentId := 1;
     comment_text := "first"; comment_parentId := None |}.

Definition aliceUser : User :=
  {| user_name := "Alice"; user_username := "alice"; user_profileImage := None |}.

(** One published content by alice, liked and commented once by her. *)
Definition helloDb : Db :=
  {| Content_collection := {[ 1%positive := helloContent ]};
     Like_collection := {[ 1%positive := aliceLikesHello ]};
     Comment_collection := {[ 1%positive := aliceOnHello ]};
     User_collection := {[ "alice" := aliceUser ]};
     analysis := emptyWorld taxonomy;
     now := 1000 |}.

Definition alice : ContentCrud.RequestUser :=
  {| ContentCrud.user_id := "alice"; ContentCrud.user_role := "user" |}.

Definition bob : ContentCrud.RequestUser :=
  {| ContentCrud.user_id := "bob"; ContentCrud.user_role := "user" |}.

Definition retitle (c : Content) : Content :=
  {| title := "Hello again"; body := body c; author := author c;
     featuredImage := featuredImage c; category := category c;
     tags := tags c; autoTags := autoTags c;
     optimization_wordCount := optimization_wordCount c;
     optimization_readingTime := optimization_readingTime c;
     metadata := metadata c;
     viewsCount := viewsCount c; likesCount := likesCount c;
     commentsCount := commentsCount c;
     status := status c; createdAt := createdAt c |}.

(** An upload that fails for the empty path and otherwise yields a URL
    made of the public identifier. *)
#[export] Instance pathUploader : Uploader :=
  {| cloudinaryUpload := fun path publicId folder =>
       if String.eqb path EmptyString then None
       else Some ("https://cdn.example/" ++ folder ++ "/" ++ publicId)%string |}.

(** A text index that matches the contents whose title is the search. *)
#[export] Instance titleIndex : TextIndex :=
  {| textMatches := fun searchText c => String.eqb searchText (title c) |}.

(** A published content with a given number of views, created at the
    time of that number. *)
Definition viewed (views : Z) : Content :=
  {| title := "Post"; body := "text"; author := "alice";
     featuredImage := None; category := "Uncategorized";
     tags := []; autoTags := [];
     optimization_wordCount := 1; optimization_readingTime := 1;
     metadata := None;
     viewsCount := views; likesCount := 0; commentsCount := 0;
     status := published; createdAt := Z.to_N views |}.

(** Six published contents, with 1 to 6 views. *)
Definition sixDb : Db :=
  {| Content_collection :=
       list_to_map [(1%positive, viewed 1); (2%positive, viewed 2);
                    (3%positive, viewed 3); (4%positive, viewed 4);
                    (5%positive, viewed 5); (6%positive, viewed 6)];
     Like_collection := ∅;
     Comment_collection := ∅;
     User_collection := {[ "alice" := aliceUser ]};
     analysis := emptyWorld taxonomy;
     now := 1000 |}.

Definition foxData : ContentCrud.ContentData :=
  {| ContentCrud.cd_title := Some "  Foxes  ";
     ContentCrud.cd_body := Some foxText;
     ContentCrud.cd_tags := None;
     ContentCrud.cd_status := Some "published";
     ContentCrud.cd_metadata := None |}.


Definition sampleValidationMessage (data : ContentCrud.ContentData) : string :=
  "Content validation failed".

Definition firstPage : ContentCrud.QueryOptions :=
  {| ContentCrud.page := None; ContentCrud.limit := None;
     ContentCrud.search := None |}.

End SampleStore.

Import SampleStore.

(** ** The analysis core over a parser that may throw *)

(** The calls of lines 19-21 into the packages [jsdom] and
    [@mozilla/readability], which are not part of the sources: on the
    text of a document they end either by throwing an error or by
    yielding the text of the article, or [null] when there is no
    article. *)
Class Parser : Type := {
  parse_document : string -> Result (option string)
}.

Module AnalysisCore.

Section Core.
Context `{Tokenizer} `{Parser}.
Local Open Scope js_scope.

(** Lines 19-21. Nothing catches what the parser throws. *)
Definition parseArticle (textBody : string)
  : M ContentService.World (option string) :=
  let html := ("<body>" ++ textBody ++ "</body>")%string in
  do* ContentService.emit (ContentService.EvExtract html) in
  fun w => (parse_document html, w).

(** Lines 17-59. *)
Definition performContentAnalysis (textBody : string)
  : M ContentService.World AnalysisResult :=
  let* article := parseArticle textBody in
  let wordCount :=
    match article with
    | Some textContent => length (JS.split_ws textContent)
    | None => 0
    end in
  let readingTime := JS.Math_ceil_div wordCount 200 in
  let textContent :=
    match article with
    | Some textContent => textContent
    | None => EmptyString
    end in
  let* autoTags := ContentService.rankAutoTags textContent in
  let* categories := ContentService.Category_find in
  let* suggestedCategory :=
    ContentService.suggestCategory textContent categories in
  ret {| wordCount := wordCount;
         readingTime := readingTime;
         autoTags := autoTags;
         suggestedCategory := suggestedCategory |}.

(** Lines 208-219. *)
Definition analyzeContentService (textBody : string)
  : M ContentService.World AnalysisResult :=
  if String.eqb textBody EmptyString
     || (String.length (JS.trim textBody) =? 0)%nat
  then ret {| wordCount := 0;
              readingTime := 0%Z;
              autoTags := [];
              suggestedCategory := ContentService.Uncategorized |}
  else performContentAnalysis textBody.

End Core.

(** The parser that never throws, made of an extractor. *)
Definition totalParser `{Extractor} : Parser :=
  {| parse_document := fun html => Ok (readability_parse html) |}.

End AnalysisCore.

(** ** A parser with a bounded stack, to run the core on examples *)

Module SampleParser.

(** The deepest nesting of elements in a markup. *)
Fixpoint nesting (depth deepest : nat) (s : string) : nat :=
  match s with
  | EmptyString => deepest
  | String "<" (String "/" r) => nesting (pred depth) deepest r
  | String "<" r => nesting (S depth) (Nat.max deepest (S depth)) r
  | String _ r => nesting depth deepest r
  end.

(** The text of a markup outside of its tags. *)
Fixpoint strip_tags (in_tag : bool) (s : string) : string :=
  match s with
  | EmptyString => EmptyString
  | String c r =>
      if in_tag then
        if Ascii.eqb c ">" then strip_tags false r else strip_tags true r
      else if Ascii.eqb c "<" then strip_tags true r
      else String c (strip_tags false r)
  end.

Definition stackOverflow : string :=
  "RangeError: Maximum call stack size exceeded".

(** A parser that walks the elements recursively and overflows its
    stack on elements nested deeper than four; otherwise it yields the
    text outside of the tags, and no article when that text is blank. *)
#[export] Instance stackParser : Parser :=
  {| parse_document := fun html =>
       if (4 <? nesting 0 0 html)%nat then Throw stackOverflow
       else
         let text := strip_tags false html in
         if JS.all_ws text then Ok None else Ok (Some text) |}.


End SampleParser.

Import SampleParser.

(** ** Examples *)

Example split_ws_plain : JS.split_ws "a  b c" = ["a"; "b"; "c"].
Proof. reflexivity. Qed.

Example split_ws_empty : JS.split_ws "" = [""].
Proof. reflexivity. Qed.

Example split_ws_edges : JS.split_ws " a b " = [""; "a"; "b"; ""].
Proof. reflexivity. Qed.

Example trim_edges : JS.trim "  a b  " = "a b".
Proof. reflexivity. Qed.

Example ceil_201 : JS.Math_ceil_div 201 200 = 2%Z.
Proof. reflexivity. Qed.

Example fox_analysis :
  fst (ContentService.analyzeContentService foxText (emptyWorld taxonomy))
  = Ok {| wordCount := 13; readingTime := 1%Z;
          autoTags := ["The"; "fox"; "quick"; "brown"; "jumps"];
          suggestedCategory := "Animals" |}.
Proof. vm_compute. reflexivity. Qed.

Example fox_trace :
  ContentService.trace
    (snd (ContentService.analyzeContentService "a b" (emptyWorld taxonomy)))
  = [ContentService.EvExtract "<body>a b</body>";
     ContentService.EvRankTerms "a b";
     ContentService.EvFetchCategories;
     ContentService.EvClassify "a b"].
Proof. vm_compute. reflexivity. Qed.

Example apple_tags :
  fst (ContentService.analyzeContentService appleText (emptyWorld taxonomy))
  = Ok {| wordCount := 50; readingTime := 1%Z;
          autoTags := ["apple"; "w01"; "w02"; "w03"; "w04"];
          suggestedCategory := "Uncategorized" |}.
Proof. vm_compute. reflexivity. Qed.

Example toggle_create :
  InteractionsService.toggleFollowService "alice" "bob"
    {[ 1%positive := carol_alice ]}
  = (Ok {| InteractionsService.following := true |},
     <[2%positive := alice_bob]> {[ 1%positive := carol_alice ]}).
Proof. vm_compute. reflexivity. Qed.

Example toggle_delete :
  InteractionsService.toggleFollowService "alice" "bob"
    (<[2%positive := alice_bob]> {[ 1%positive := carol_alice ]})
  = (Ok {| InteractionsService.following := false |},
     {[ 1%positive := carol_alice ]}).
Proof. vm_compute. reflexivity. Qed.

Example toggle_self :
  InteractionsService.toggleFollowService "alice" "alice"
    {[ 1%positive := carol_alice ]}
  = (Throw "Users cannot follow themselves.", {[ 1%positive := carol_alice ]}).
Proof. reflexivity. Qed.

(** ** Running the analysis *)

Section Content_runs.
Context `{Tokenizer} `{Extractor}.
Import ContentService Props.

(** The composite result of one run, written without the monad. *)
Lemma performContentAnalysis_run (textBody : string) (w : World) :
  exists r w',
    performContentAnalysis textBody w = (Ok r, w')
    /\ wordCount r
       = match readability_parse ("<body>" ++ textBody ++ "</body>")%string with
         | Some textContent => length (JS.split_ws textContent)
         | None => 0
         end
    /\ readingTime r = JS.Math_ceil_div (wordCount r) 200
    /\ autoTags r
       = map TfIdf.term
           (firstn 5 (TfIdf.sort (TfIdf.entries
              (TfIdf.buildDocument (tokenize (extractedText textBody))))))
    /\ suggestedCategory r
       = (if (0 <? length (Category_collection w))%nat
          then snd (fold_left
                      (considerCategory
                         (tokenize (JS.toLowerCase (extractedText textBody))))
                      (Category_collection w) (0, Uncategorized))
          else Uncategorized)
    /\ module_TfIdf w' = module_TfIdf w
    /\ Category_collection w' = Category_collection w
    /\ exists calls,
         trace w'
         = trace w ++ EvExtract ("<body>" ++ textBody ++ "</body>")%string :: calls.
Proof.
  unfold performContentAnalysis, parseArticle, rankAutoTags, Category_find,
    suggestCategory, extractedText, bind, ret, emit, get.
  cbv beta iota zeta; cbn [module_TfIdf Category_collection trace].
  destruct (0 <? length (Category_collection w))%nat;
    eexists; eexists; (split; [reflexivity|]);
    cbn [wordCount readingTime autoTags suggestedCategory
         module_TfIdf Category_collection trace];
    repeat (split; [reflexivity|]); rewrite <- !app_assoc; cbn [app]; eauto.
Qed.

End Content_runs.

(** ** Metrics *)

Lemma Math_ceil_div_200 (n : nat) :
  JS.Math_ceil_div n 200 = (- ((- Z.of_nat n) / 200))%Z.
Proof.
  unfold JS.Math_ceil_div, Qceiling, Qfloor, Qdiv, Qmult, Qinv, inject_Z, Qopp.
  cbn. now rewrite Z.mul_1_r.
Qed.

Lemma Math_ceil_div_200_bounds (n : nat) :
  (200 * (JS.Math_ceil_div n 200 - 1) < Z.of_nat n <= 200 * JS.Math_ceil_div n 200)%Z.
Proof.
  rewrite Math_ceil_div_200.
  pose proof (Z.div_mod (- Z.of_nat n) 200 ltac:(lia)) as Hdm.
  pose proof (Z.mod_pos_bound (- Z.of_nat n) 200 ltac:(lia)) as Hb.
  lia.
Qed.

Section Metrics_proofs.
Context `{Tokenizer} `{Extractor}.
Import ContentService Props.

(** C4: the reading time of a result is [Math.ceil (wordCount / 200)],
    the least integer [t] with [wordCount <= 200 * t]: it is above
    [wordCount / 200] by less than one. A word count of 0 gives 0, any
    other word count gives at least 1, and 199, 200 and 201 words give
    1, 1 and 2. *)
Theorem C4_readingTime_ceiling (textBody : string) (w : World) :
  (exists r w',
      performContentAnalysis textBody w = (Ok r, w')
      /\ readingTime r = JS.Math_ceil_div (wordCount r) 200
      /\ (200 * (readingTime r - 1) < Z.of_nat (wordCount r)
          <= 200 * readingTime r)%Z)
  /\ (forall n : nat,
        (200 * (JS.Math_ceil_div n 200 - 1) < Z.of_nat n
         <= 200 * JS.Math_ceil_div n 200)%Z)
  /\ JS.Math_ceil_div 0 200 = 0%Z
  /\ (forall n : nat, (1 <= JS.Math_ceil_div (S n) 200)%Z)
  /\ JS.Math_ceil_div 199 200 = 1%Z
  /\ JS.Math_ceil_div 200 200 = 1%Z
  /\ JS.Math_ceil_div 201 200 = 2%Z.
Proof.
  split.
  - destruct (performContentAnalysis_run textBody w)
      as (r & w' & Hrun & _ & Hrt & _).
    exists r, w'. split; [exact Hrun|]. split; [exact Hrt|].
    rewrite Hrt. apply Math_ceil_div_200_bounds.
  - split; [exact Math_ceil_div_200_bounds|].
    split; [reflexivity|].
    split; [|repeat split; reflexivity].
    intros n. pose proof (Math_ceil_div_200_bounds (S n)). lia.
Qed.

End Metrics_proofs.

(** ** The category classifier *)

Section Classifier_proofs.
Context `{Tokenizer} `{Extractor}.
Import ContentService Props.

Lemma includes_elem_of (arr : list string) (x : string) :
  JS.includes arr x = bool_decide (x ∈ arr).
Proof.
  unfold JS.includes. induction arr as [|y arr IH]; cbn.
  - symmetry. apply bool_decide_eq_false. apply not_elem_of_nil.
  - rewrite IH. destruct (String.eqb_spec x y) as [->|Hne]; cbn.
    + symmetry. apply bool_decide_eq_true. left.
    + apply eq_true_iff_eq. rewrite !bool_decide_eq_true.
      rewrite elem_of_cons. intuition congruence.
Qed.

Lemma countMatches_from (tokens kws : list string) (n : nat) :
  fold_left
    (fun currentMatches keyword =>
       if JS.includes tokens (JS.toLowerCase keyword)
       then S currentMatches else currentMatches) kws n
  = n + length (List.filter
                  (fun k => bool_decide (JS.toLowerCase k ∈ tokens)) kws).
Proof.
  revert n. induction kws as [|k kws IH]; intros n; cbn.
  - lia.
  - rewrite IH, includes_elem_of.
    destruct (bool_decide (JS.toLowerCase k ∈ tokens)); cbn; lia.
Qed.

Lemma countMatches_score (tokens : list string) (c : Category) :
  countMatches tokens (keywords c) = score tokens c.
Proof. unfold countMatches, score. now rewrite countMatches_from. Qed.

Lemma score_remove_dups (tokens : list string) (c : Category) :
  score (remove_dups tokens) c = score tokens c.
Proof.
  unfold score. f_equal. apply filter_ext. intros k.
  apply eq_true_iff_eq. rewrite !bool_decide_eq_true.
  apply elem_of_remove_dups.
Qed.

Lemma considerCategory_score (tokens : list string) (maxMatches : nat)
  (suggested : string) (c : Category) :
  considerCategory tokens (maxMatches, suggested) c
  = if (maxMatches <? score tokens c)%nat
    then (score tokens c, name c) else (maxMatches, suggested).
Proof. unfold considerCategory. cbn [fst]. now rewrite countMatches_score. Qed.

(** The loop over the categories, started from any running best: it
    either keeps it, no category scoring more, or ends on the first
    category that reaches the largest score. *)
Lemma forEach_category (tokens : list string) (cats : list Category)
  (maxMatches : nat) (suggested : string) :
  let out := fold_left (considerCategory tokens) cats (maxMatches, suggested) in
  ((forall c, c ∈ cats -> score tokens c <= maxMatches)
   /\ out = (maxMatches, suggested))
  \/ (exists pre c post,
        cats = pre ++ c :: post
        /\ out = (score tokens c, name c)
        /\ maxMatches < score tokens c
        /\ (forall p, p ∈ pre -> score tokens p < score tokens c)
        /\ (forall q, q ∈ post -> score tokens q <= score tokens c)).
Proof.
  revert maxMatches suggested.
  induction cats as [|c0 cats IH]; intros maxMatches suggested;
    cbv zeta in *; cbn [fold_left].
  - left. split; [|reflexivity]. intros c Hc. inversion Hc.
  - rewrite considerCategory_score.
    destruct (Nat.ltb_spec maxMatches (score tokens c0)) as [Hlt|Hge].
    + destruct (IH (score tokens c0) (name c0))
        as [[Hall Hout]|(pre & c & post & -> & Hout & Hc & Hpre & Hpost)].
      * right. exists [], c0, cats.
        split; [reflexivity|]. split; [exact Hout|]. split; [exact Hlt|].
        split; [|exact Hall].
        intros p Hp. inversion Hp.
      * right. exists (c0 :: pre), c, post.
        split; [reflexivity|]. split; [exact Hout|]. split; [lia|].
        split; [|exact Hpost].
        intros p Hp. apply elem_of_cons in Hp as [->|Hp]; auto.
    + destruct (IH maxMatches suggested)
        as [[Hall Hout]|(pre & c & post & -> & Hout & Hc & Hpre & Hpost)].
      * left. split; [|exact Hout].
        intros c Hc. apply elem_of_cons in Hc as [->|Hc]; auto.
      * right. exists (c0 :: pre), c, post.
        split; [reflexivity|]. split; [exact Hout|]. split; [exact Hc|].
        split; [|exact Hpost].
        intros p Hp. apply elem_of_cons in Hp as [->|Hp]; [lia|auto].
Qed.

(** What [suggestedCategory] is after the guard on the number of
    categories and the loop. *)
Lemma suggested_category_cases (tokens : list string) (cats : list Category) :
  let suggested :=
    if (0 <? length cats)%nat
    then snd (fold_left (considerCategory tokens) cats (0, Uncategorized))
    else Uncategorized in
  ((forall c, c ∈ cats -> score tokens c = 0) /\ suggested = Uncategorized)
  \/ (exists pre c post,
        cats = pre ++ c :: post
        /\ suggested = name c
        /\ 0 < score tokens c
        /\ (forall p, p ∈ pre -> score tokens p < score tokens c)
        /\ (forall q, q ∈ post -> score tokens q <= score tokens c)).
Proof.
  cbv zeta.
  destruct (forEach_category tokens cats 0 Uncategorized)
    as [[Hall Hout]|(pre & c & post & Hcats & Hout & Hc & Hpre & Hpost)].
  - left. split.
    + intros c Hc. specialize (Hall c Hc). lia.
    + rewrite Hout. now destruct (0 <? length cats)%nat.
  - right. exists pre, c, post. rewrite Hout.
    split; [exact Hcats|]. split; [|auto].
    rewrite Hcats, length_app. cbn [length snd].
    destruct (Nat.ltb_spec 0 (length pre + S (length post))) as [_|Hbad];
      [reflexivity|lia].
Qed.

(** C1: the score of a category is the number of its keywords (in
    lower case) that occur among the tokens of the lower-cased text;
    only membership counts, so repeated tokens change nothing. The
    suggestion is the name of the first category, in the order of the
    taxonomy, whose score is positive, larger than the score of every
    category before it and not smaller than the score of every category
    after it; when every score is 0 it stays the sentinel. *)
Theorem C1_first_best_category (textBody : string) (w : World) :
  let tokens := tokenize (JS.toLowerCase (extractedText textBody)) in
  let cats := Category_collection w in
  (forall c,
      countMatches tokens (keywords c)
      = length (List.filter
                  (fun k => bool_decide (JS.toLowerCase k ∈ tokens))
                  (keywords c))
      /\ countMatches (remove_dups tokens) (keywords c)
         = countMatches tokens (keywords c)
      /\ countMatches (tokens ++ tokens) (keywords c)
         = countMatches tokens (keywords c))
  /\ exists r w',
      performContentAnalysis textBody w = (Ok r, w')
      /\ (((forall c, c ∈ cats -> countMatches tokens (keywords c) = 0)
           /\ suggestedCategory r = Uncategorized)
          \/ (exists pre c post,
                cats = pre ++ c :: post
                /\ suggestedCategory r = name c
                /\ 0 < countMatches tokens (keywords c)
                /\ (forall p, p ∈ pre ->
                      countMatches tokens (keywords p)
                      < countMatches tokens (keywords c))
                /\ (forall q, q ∈ post ->
                      countMatches tokens (keywords q)
                      <= countMatches tokens (keywords c)))).
Proof.
  cbv zeta. split.
  - intros c. rewrite !countMatches_score. split; [reflexivity|].
    split; [apply score_remove_dups|].
    unfold score. f_equal. apply filter_ext. intros k.
    apply eq_true_iff_eq. rewrite !bool_decide_eq_true.
    rewrite elem_of_app. tauto.
  - destruct (performContentAnalysis_run textBody w)
      as (r & w' & Hrun & _ & _ & _ & Hcat & _).
    exists r, w'. split; [exact Hrun|]. rewrite Hcat.
    destruct (suggested_category_cases
                (tokenize (JS.toLowerCase (extractedText textBody)))
                (Category_collection w))
      as [[Hall Hs]|(pre & c & post & Hcats & Hs & Hc & Hpre & Hpost)].
    + left. split; [|exact Hs].
      intros c Hc. rewrite countMatches_score. auto.
    + right. exists pre, c, post. rewrite !countMatches_score.
      split; [exact Hcats|]. split; [exact Hs|]. split; [exact Hc|]. split.
      * intros p Hp. rewrite countMatches_score. auto.
      * intros q Hq. rewrite countMatches_score. auto.
Qed.

End Classifier_proofs.

Section Sentinel_proofs.
Context `{Tokenizer} `{Extractor}.
Import ContentService Props.

Lemma name_of_member (pre post : list Category) (c : Category) :
  name c ∈ map name (pre ++ c :: post).
Proof.
  rewrite map_app. apply elem_of_app. right. cbn. left.
Qed.

(** C6, as amended: the suggestion is the sentinel or the name of one of
    the categories of the collection; it is the sentinel when the
    collection is empty and when no category has a positive score; it is
    not the empty string when no category has the empty string as its
    name. *)
Theorem C6_sentinel_or_supplied_name (textBody : string) (w : World) :
  let tokens := tokenize (JS.toLowerCase (extractedText textBody)) in
  let cats := Category_collection w in
  exists r w',
    performContentAnalysis textBody w = (Ok r, w')
    /\ (suggestedCategory r = Uncategorized
        \/ suggestedCategory r ∈ map name cats)
    /\ (cats = [] -> suggestedCategory r = Uncategorized)
    /\ ((forall c, c ∈ cats -> ~ 0 < countMatches tokens (keywords c)) ->
        suggestedCategory r = Uncategorized)
    /\ ((forall c, c ∈ cats -> name c <> EmptyString) ->
        suggestedCategory r <> EmptyString).
Proof.
  cbv zeta.
  destruct (performContentAnalysis_run textBody w)
    as (r & w' & Hrun & _ & _ & _ & Hcat & _).
  exists r, w'. split; [exact Hrun|]. rewrite Hcat.
  destruct (suggested_category_cases
              (tokenize (JS.toLowerCase (extractedText textBody)))
              (Category_collection w))
    as [[Hall Hs]|(pre & c & post & Hcats & Hs & Hc & Hpre & Hpost)].
  - rewrite Hs. split; [now left|]. split; [reflexivity|].
    split; [reflexivity|]. intros _. discriminate.
  - rewrite Hs. split; [|split; [|split]].
    + right. rewrite Hcats. apply name_of_member.
    + intros Hnil. rewrite Hnil in Hcats. now destruct pre.
    + intros Hnone. exfalso. apply (Hnone c).
      * rewrite Hcats. apply elem_of_app. right. left.
      * now rewrite countMatches_score.
    + intros Hnames. apply Hnames.
      rewrite Hcats. apply elem_of_app. right. left.
Qed.

End Sentinel_proofs.

(** C6, a category whose name is the empty string: the text "a" is
    analysed against a collection whose only category has the empty
    name and the keyword "a", and the suggestion is the empty string. *)
Lemma C6_empty_name_is_suggested :
  fst (ContentService.performContentAnalysis "a"
         (emptyWorld [ {| name := ""; keywords := ["a"] |} ]))
  = Ok {| wordCount := 1; readingTime := 1%Z; autoTags := ["a"];
          suggestedCategory := "" |}.
Proof. vm_compute. reflexivity. Qed.

(** With the sample taxonomy, whose names are not empty, the suggestion
    for the fox text is not empty. *)
Lemma C6_sentinel_or_supplied_name_witness :
  exists r w',
    ContentService.performContentAnalysis foxText (emptyWorld taxonomy)
    = (Ok r, w')
    /\ suggestedCategory r <> EmptyString.
Proof.
  destruct (C6_sentinel_or_supplied_name foxText (emptyWorld taxonomy))
    as (r & w' & Hrun & _ & _ & _ & Hne).
  exists r, w'. split; [exact Hrun|].
  apply Hne. intros c Hc.
  apply list_elem_of_In in Hc. cbn in Hc.
  destruct Hc as [<-|[<-|[]]]; discriminate.
Defined.

(** ** Word count *)

Lemma append_not_empty (cur : string) (c : ascii) :
  (cur ++ String c EmptyString)%string <> EmptyString.
Proof. destruct cur; discriminate. Qed.

Lemma emptyPieces_cons (cur : string) (pieces : list string) :
  cur <> EmptyString -> Props.emptyPieces (cur :: pieces) = Props.emptyPieces pieces.
Proof.
  intros Hne. unfold Props.emptyPieces. cbn [List.filter].
  destruct (String.eqb_spec EmptyString cur) as [Heq|_]; [congruence|reflexivity].
Qed.

Lemma ends_ws_cons (c : ascii) (r : string) :
  Props.ends_ws (String c r)
  = match r with EmptyString => JS.is_ws c | _ => Props.ends_ws r end.
Proof. reflexivity. Qed.

Lemma split_go_emptyPieces (s : string) :
  Props.emptyPieces (JS.split_go true EmptyString s)
  = (if String.eqb s EmptyString || Props.ends_ws s then 1 else 0)
  /\ (forall cur, cur <> EmptyString ->
        Props.emptyPieces (JS.split_go false cur s) = if Props.ends_ws s then 1 else 0).
Proof.
  induction s as [|c r [IHsep IHcur]]; [split; [reflexivity|]|].
  - intros cur Hne. cbn [JS.split_go]. rewrite emptyPieces_cons by exact Hne.
    reflexivity.
  - cbn [JS.split_go]. rewrite ends_ws_cons.
    destruct (JS.is_ws c) eqn:Hc; split.
    + rewrite IHsep. now destruct r.
    + intros cur Hne. rewrite emptyPieces_cons by exact Hne.
      rewrite IHsep. now destruct r.
    + rewrite IHcur by apply append_not_empty. now destruct r.
    + intros cur Hne. rewrite IHcur by apply append_not_empty. now destruct r.
Qed.

Lemma length_split_ws (text : string) :
  length (JS.split_ws text)
  = length (Props.nonEmptyTokens text)
    + (if String.eqb text EmptyString || Props.starts_ws text then 1 else 0)
    + (if Props.ends_ws text then 1 else 0).
Proof.
  assert (Hparts : forall l : list string,
             length l
             = length (List.filter (fun p => negb (String.eqb p EmptyString)) l)
               + Props.emptyPieces l).
  { unfold Props.emptyPieces. induction l as [|p l IH]; [reflexivity|].
    cbn [List.filter length]. rewrite (String.eqb_sym EmptyString p).
    destruct (String.eqb p EmptyString); cbn [negb length]; lia. }
  unfold Props.nonEmptyTokens. rewrite (Hparts (JS.split_ws text)).
  rewrite <- Nat.add_assoc. f_equal.
  unfold JS.split_ws. destruct text as [|c r]; [reflexivity|].
  destruct (split_go_emptyPieces r) as [Hsep Hcur].
  cbn [JS.split_go Props.starts_ws String.eqb orb]. rewrite ends_ws_cons.
  destruct (JS.is_ws c) eqn:Hc.
  - change (Props.emptyPieces (EmptyString :: JS.split_go true EmptyString r))
      with (S (Props.emptyPieces (JS.split_go true EmptyString r))).
    rewrite Hsep. now destruct r.
  - rewrite Hcur by discriminate. now destruct r.
Qed.

Section WordCount_proofs.
Context `{Tokenizer} `{Extractor}.
Import ContentService Props.

(** The word count of an analysis: the non-empty tokens of the article
    text, one more when that text is empty or starts with whitespace,
    and one more when it ends with whitespace; 0 without an article. *)
Lemma wordCount_pieces (textBody : string) (w : World) :
  exists r w',
    performContentAnalysis textBody w = (Ok r, w')
    /\ wordCount r
       = match readability_parse ("<body>" ++ textBody ++ "</body>")%string with
         | Some text =>
             length (nonEmptyTokens text)
             + (if String.eqb text EmptyString || starts_ws text then 1 else 0)
             + (if ends_ws text then 1 else 0)
         | None => 0
         end.
Proof.
  destruct (performContentAnalysis_run textBody w)
    as (r & w' & Hrun & Hwc & _).
  exists r, w'. split; [exact Hrun|]. rewrite Hwc.
  destruct (readability_parse _); [apply length_split_ws|reflexivity].
Qed.

End WordCount_proofs.

(** C3, at an extracted text with leading whitespace: the text
    " hello world" has two non-empty whitespace-delimited tokens, and
    the word count of the analysis is 3, because the split leaves an
    empty piece before the first run of whitespace. The empty text, when
    it is the text of an article, counts as one word. *)
Theorem C3_wordCount_counts_empty_pieces :
  Props.extractedText " hello world" = " hello world"
  /\ length (Props.nonEmptyTokens " hello world") = 2
  /\ fst (ContentService.performContentAnalysis " hello world" (emptyWorld []))
     = Ok {| wordCount := 3; readingTime := 1%Z;
             autoTags := ["hello"; "world"];
             suggestedCategory := "Uncategorized" |}
  /\ length (JS.split_ws "") = 1
  /\ Props.nonEmptyTokens "" = [].
Proof. vm_compute. repeat split; reflexivity. Qed.

(** ** The entry point and its short circuit *)

Lemma trimStart_all_ws (s : string) :
  JS.all_ws s = true -> JS.trimStart s = EmptyString.
Proof.
  induction s as [|c r IH]; cbn; [reflexivity|].
  destruct (JS.is_ws c); cbn; [exact IH|discriminate].
Qed.

Lemma trimStart_head (s : string) :
  (JS.trimStart s = EmptyString /\ JS.all_ws s = true)
  \/ (exists c r, JS.trimStart s = String c r /\ JS.is_ws c = false).
Proof.
  induction s as [|c r IH]; cbn; [now left|].
  destruct (JS.is_ws c) eqn:Hc; cbn; [exact IH|].
  right. now exists c, r.
Qed.

Lemma trimEnd_head (c : ascii) (r : string) :
  JS.is_ws c = false -> JS.trimEnd (String c r) <> EmptyString.
Proof.
  intros Hc. cbn. destruct (JS.trimEnd r); [rewrite Hc|]; discriminate.
Qed.

(** The guard of the entry point holds exactly of the blank markups. *)
Lemma blank_guard (textBody : string) :
  String.eqb textBody EmptyString
  || (String.length (JS.trim textBody) =? 0)%nat
  = JS.all_ws textBody.
Proof.
  unfold JS.trim.
  destruct (trimStart_head textBody) as [[Hts Hall]|(c & r & Hts & Hc)].
  - rewrite Hts, Hall. cbn. apply orb_true_r.
  - assert (Hnot : JS.all_ws textBody = false).
    { destruct (JS.all_ws textBody) eqn:Hall; [|reflexivity].
      rewrite (trimStart_all_ws _ Hall) in Hts. discriminate. }
    rewrite Hnot, Hts.
    pose proof (trimEnd_head c r Hc) as Hne.
    destruct (JS.trimEnd (String c r)); [congruence|].
    destruct (String.eqb_spec textBody EmptyString) as [->|_];
      [discriminate|reflexivity].
Qed.

Section Entry_point_proofs.
Context `{Tokenizer} `{Extractor}.
Import ContentService Props.

(** C5: for a markup that is empty or made of whitespace only, the
    entry point returns the default result and leaves the world as it
    was: nothing is added to the trace of calls, so neither the
    extractor, nor the indexer, nor the category collection, nor the
    classifier is used. *)
Theorem C5_blank_markup_short_circuit (textBody : string) (w : World) :
  JS.all_ws textBody = true ->
  analyzeContentService textBody w
  = (Ok {| wordCount := 0; readingTime := 0%Z; autoTags := [];
           suggestedCategory := "Uncategorized" |}, w)
  /\ trace (snd (analyzeContentService textBody w)) = trace w.
Proof.
  intros Hblank. unfold analyzeContentService.
  rewrite blank_guard, Hblank. split; reflexivity.
Qed.


End Entry_point_proofs.

(** Three spaces are a blank markup. *)
Lemma C5_blank_markup_short_circuit_witness :
  JS.all_ws "   " = true
  /\ ContentService.analyzeContentService "   " (emptyWorld taxonomy)
     = (Ok Props.defaults, emptyWorld taxonomy).
Proof.
  split; [reflexivity|].
  apply (C5_blank_markup_short_circuit "   " (emptyWorld taxonomy)).
  reflexivity.
Defined.

(** ** Extraction without an article *)

Section Fail_soft_proofs.
Context `{Tokenizer} `{Extractor}.
Import ContentService Props.



End Fail_soft_proofs.

(** ** Errors of the parser *)

Section Raising_proofs.
Context `{Tokenizer} `{Parser}.
Import ContentService Props.

(** A parser that throws ends the analysis with its error, after the
    call of the extractor and before any other call. *)
Lemma performContentAnalysis_throw (textBody e : string) (w : World) :
  parse_document ("<body>" ++ textBody ++ "</body>")%string = Throw e ->
  AnalysisCore.performContentAnalysis textBody w
  = (Throw e,
     {| module_TfIdf := module_TfIdf w;
        Category_collection := Category_collection w;
        trace := trace w
                 ++ [EvExtract ("<body>" ++ textBody ++ "</body>")%string] |}).
Proof.
  intros Hthrow.
  unfold AnalysisCore.performContentAnalysis, AnalysisCore.parseArticle,
    bind, emit.
  now rewrite Hthrow.
Qed.

(** A parser that yields an article, or none, lets the analysis go on
    as with an extractor that yields the same. *)
Lemma performContentAnalysis_parsed (textBody : string) (article : option string)
  (w : World) :
  parse_document ("<body>" ++ textBody ++ "</body>")%string = Ok article ->
  let text := match article with Some t => t | None => EmptyString end in
  exists r w' calls,
    AnalysisCore.performContentAnalysis textBody w = (Ok r, w')
    /\ wordCount r
       = match article with
         | Some t => length (JS.split_ws t)
         | None => 0
         end
    /\ readingTime r = JS.Math_ceil_div (wordCount r) 200
    /\ autoTags r
       = map TfIdf.term
           (firstn 5 (TfIdf.sort (TfIdf.entries
              (TfIdf.buildDocument (tokenize text)))))
    /\ suggestedCategory r
       = (if (0 <? length (Category_collection w))%nat
          then snd (fold_left
                      (considerCategory (tokenize (JS.toLowerCase text)))
                      (Category_collection w) (0, Uncategorized))
          else Uncategorized)
    /\ trace w'
       = trace w
         ++ EvExtract ("<body>" ++ textBody ++ "</body>")%string
            :: EvRankTerms text :: calls.
Proof.
  intros Hparsed. cbv zeta.
  unfold AnalysisCore.performContentAnalysis, AnalysisCore.parseArticle,
    rankAutoTags, Category_find, suggestCategory, bind, ret, emit, get.
  rewrite Hparsed.
  cbv beta iota zeta; cbn [module_TfIdf Category_collection trace].
  destruct (0 <? length (Category_collection w))%nat;
    eexists; eexists; eexists; (split; [reflexivity|]);
    cbn [wordCount readingTime autoTags suggestedCategory
         module_TfIdf Category_collection trace];
    repeat (split; [reflexivity|]); rewrite <- !app_assoc; cbn [app];
    reflexivity.
Qed.



(** With the parser that never throws the core is the content
    service. *)
Lemma performContentAnalysis_totalParser `{Extractor} (textBody : string)
  (w : World) :
  @AnalysisCore.performContentAnalysis _ AnalysisCore.totalParser textBody w
  = ContentService.performContentAnalysis textBody w.
Proof. reflexivity. Qed.

End Raising_proofs.



(** ** Independence of the calls *)

Lemma AnalysisResult_ext (r1 r2 : AnalysisResult) :
  wordCount r1 = wordCount r2 ->
  readingTime r1 = readingTime r2 ->
  autoTags r1 = autoTags r2 ->
  suggestedCategory r1 = suggestedCategory r2 ->
  r1 = r2.
Proof. destruct r1, r2; cbn; intros; subst; reflexivity. Qed.

Section Stateless_proofs.
Context `{Tokenizer} `{Extractor}.
Import ContentService Props.

Lemma performContentAnalysis_same_categories (textBody : string) (w1 w2 : World) :
  Category_collection w1 = Category_collection w2 ->
  fst (performContentAnalysis textBody w1)
  = fst (performContentAnalysis textBody w2).
Proof.
  intros Hcats.
  destruct (performContentAnalysis_run textBody w1)
    as (r1 & w1' & Hrun1 & Hwc1 & Hrt1 & Htags1 & Hcat1 & _).
  destruct (performContentAnalysis_run textBody w2)
    as (r2 & w2' & Hrun2 & Hwc2 & Hrt2 & Htags2 & Hcat2 & _).
  rewrite Hrun1, Hrun2. cbn [fst]. f_equal.
  rewrite Hcats in Hcat1.
  apply AnalysisResult_ext; congruence.
Qed.

Lemma analyzeContentService_same_categories (textBody : string) (w1 w2 : World) :
  Category_collection w1 = Category_collection w2 ->
  fst (analyzeContentService textBody w1)
  = fst (analyzeContentService textBody w2).
Proof.
  intros Hcats. unfold analyzeContentService.
  destruct (_ || _); [reflexivity|].
  now apply performContentAnalysis_same_categories.
Qed.

Lemma analyzeContentService_preserves (textBody : string) (w : World) :
  module_TfIdf (snd (analyzeContentService textBody w)) = module_TfIdf w
  /\ Category_collection (snd (analyzeContentService textBody w))
     = Category_collection w.
Proof.
  unfold analyzeContentService.
  destruct (_ || _); [split; reflexivity|].
  destruct (performContentAnalysis_run textBody w)
    as (r & w' & Hrun & _ & _ & _ & _ & Hmod & Hcats & _).
  rewrite Hrun. cbn [snd]. now split.
Qed.

Lemma after_calls_preserves (markups : list string) (w : World) :
  module_TfIdf (after_calls markups w) = module_TfIdf w
  /\ Category_collection (after_calls markups w) = Category_collection w.
Proof.
  unfold after_calls. revert w.
  induction markups as [|m markups IH]; intros w; cbn; [now split|].
  destruct (IH (snd (analyzeContentService m w))) as [Hmod Hcats].
  destruct (analyzeContentService_preserves m w) as [Hmod' Hcats'].
  split; congruence.
Qed.

(** C8: the result of a call is a function of the markup and of the
    category collection alone. Two worlds with the same collection give
    the same result, whatever the module-scope indexer holds and whatever
    was called before; a call changes neither the module-scope indexer
    nor the collection; after any sequence of other analyses the result
    for a markup is the one it has in the first place; and the tags of a
    call are the first five terms listed by an indexer created for that
    call, which holds the document of that call only. *)
Theorem C8_analysis_is_stateless
  (textBody : string) (others : list string) (w1 w2 : World) :
  Category_collection w1 = Category_collection w2 ->
  fst (analyzeContentService textBody w1)
  = fst (analyzeContentService textBody w2)
  /\ module_TfIdf (snd (analyzeContentService textBody w1)) = module_TfIdf w1
  /\ Category_collection (snd (analyzeContentService textBody w1))
     = Category_collection w1
  /\ fst (analyzeContentService textBody (after_calls others w1))
     = fst (analyzeContentService textBody w1)
  /\ exists r w',
      performContentAnalysis textBody w1 = (Ok r, w')
      /\ autoTags r
         = map TfIdf.term
             (firstn 5
                (TfIdf.listTerms 0
                   (TfIdf.addDocument (extractedText textBody) TfIdf.new))).
Proof.
  intros Hcats.
  split; [now apply analyzeContentService_same_categories|].
  destruct (analyzeContentService_preserves textBody w1) as [Hmod Hc].
  split; [exact Hmod|]. split; [exact Hc|]. split.
  - apply analyzeContentService_same_categories.
    apply after_calls_preserves.
  - destruct (performContentAnalysis_run textBody w1)
      as (r & w' & Hrun & _ & _ & Htags & _).
    exists r, w'. split; [exact Hrun|exact Htags].
Qed.

End Stateless_proofs.

(** A world whose module-scope indexer holds a document and whose trace
    is not empty gives the same result as the initial world. *)
Lemma C8_analysis_is_stateless_witness :
  let busy :=
    {| ContentService.module_TfIdf :=
         TfIdf.addDocument "pear pear plum" TfIdf.new;
       ContentService.Category_collection := taxonomy;
       ContentService.trace := [ContentService.EvFetchCategories] |} in
  ContentService.Category_collection (emptyWorld taxonomy)
  = ContentService.Category_collection busy
  /\ fst (ContentService.analyzeContentService foxText (emptyWorld taxonomy))
     = fst (ContentService.analyzeContentService foxText busy).
Proof.
  cbv zeta. split; [reflexivity|].
  apply (C8_analysis_is_stateless foxText [appleText]). reflexivity.
Defined.

(** ** No bound on the length of the markup *)

Lemma length_letters (n : nat) : String.length (letters n) = n.
Proof. induction n as [|n IH]; cbn; [reflexivity|now rewrite IH]. Qed.

Section Length_proofs.
Context `{Tokenizer} `{Parser}.
Import ContentService Props.

(** C9, as amended: the analysis applies no check of length; whatever
    its length, the markup is handed whole to the extractor, wrapped in
    a body element. *)
Theorem C9_markup_is_parsed_whole (textBody : string) (w : World) :
  exists calls,
    trace (snd (AnalysisCore.performContentAnalysis textBody w))
    = trace w
      ++ EvExtract ("<body>" ++ textBody ++ "</body>")%string :: calls.
Proof.
  destruct (parse_document ("<body>" ++ textBody ++ "</body>")%string)
    as [article|e] eqn:Hparse.
  - destruct (performContentAnalysis_parsed textBody article w Hparse)
      as (r & w' & calls & Hrun & _ & _ & _ & _ & Htrace).
    rewrite Hrun. cbn [snd]. eauto.
  - rewrite (performContentAnalysis_throw textBody e w Hparse).
    cbn [snd trace]. now exists [].
Qed.

End Length_proofs.

(** C9, no maximum length: there is no length beyond which every markup
    is rejected (the analysis throws) or truncated (the extractor is not
    given the whole markup). For every candidate maximum a longer markup
    is analysed in full. *)
Lemma C9_no_maximum_length :
  ~ exists maxLength : nat,
      forall textBody : string,
        maxLength < String.length textBody ->
        (exists e w',
            ContentService.performContentAnalysis textBody (emptyWorld [])
            = (Throw e, w'))
        \/ ~ In (ContentService.EvExtract
                   ("<body>" ++ textBody ++ "</body>")%string)
               (ContentService.trace
                  (snd (ContentService.performContentAnalysis textBody
                          (emptyWorld [])))).
Proof.
  intros [maxLength Hmax].
  specialize (Hmax (letters (S maxLength))).
  rewrite length_letters in Hmax.
  destruct (performContentAnalysis_run (letters (S maxLength)) (emptyWorld []))
    as (r & w' & Hrun & _ & _ & _ & _ & _ & _ & calls & Htrace).
  destruct (Hmax (Nat.lt_succ_diag_r maxLength))
    as [(e & w'' & Hthrow)|Hnot].
  - rewrite Hrun in Hthrow. discriminate.
  - apply Hnot. rewrite Hrun. cbn [snd]. rewrite Htrace.
    apply in_or_app. right. left. reflexivity.
Qed.

(** ** The term-weight indexer *)

Section Indexer_proofs.
Import Props.

Lemma includes_true (arr : list string) (x : string) :
  JS.includes arr x = true <-> x ∈ arr.
Proof.
  unfold JS.includes. rewrite existsb_exists. split.
  - intros (y & Hy & Heq). apply String.eqb_eq in Heq as ->.
    now apply list_elem_of_In.
  - intros Hx. exists x. split; [now apply list_elem_of_In|apply String.eqb_refl].
Qed.

Lemma includes_false (arr : list string) (x : string) :
  JS.includes arr x = false <-> x ∉ arr.
Proof.
  rewrite <- includes_true. destruct (JS.includes arr x); intuition congruence.
Qed.

Lemma firsts_snoc (p : list string) (w : string) :
  firsts (p ++ [w])
  = if JS.includes (firsts p) w then firsts p else firsts p ++ [w].
Proof. unfold firsts. now rewrite fold_left_app. Qed.

Lemma elem_of_firsts (p : list string) (x : string) :
  x ∈ firsts p <-> x ∈ p.
Proof.
  induction p as [|w p IH] using rev_ind; [reflexivity|].
  rewrite firsts_snoc.
  destruct (JS.includes (firsts p) w) eqn:Hinc.
  - apply includes_true in Hinc. rewrite elem_of_app, list_elem_of_singleton.
    split; [tauto|]. intros [Hx| ->]; tauto.
  - rewrite !elem_of_app, IH. reflexivity.
Qed.

Lemma NoDup_firsts (p : list string) : NoDup (firsts p).
Proof.
  induction p as [|w p IH] using rev_ind; [constructor|].
  rewrite firsts_snoc.
  destruct (JS.includes (firsts p) w) eqn:Hinc; [exact IH|].
  apply includes_false in Hinc.
  apply NoDup_app. split; [exact IH|]. split; [|apply NoDup_singleton].
  intros x Hx Hw. apply list_elem_of_singleton in Hw as ->. contradiction.
Qed.

Lemma occurrences_snoc (x w : string) (p : list string) :
  occurrences x (p ++ [w])
  = occurrences x p + (if String.eqb x w then 1 else 0).
Proof.
  unfold occurrences. rewrite List.filter_app, length_app. cbn.
  now destruct (String.eqb x w).
Qed.

Lemma occurrences_absent (x : string) (p : list string) :
  x ∉ p -> occurrences x p = 0.
Proof.
  unfold occurrences. induction p as [|y p IH]; intros Hx; cbn; [reflexivity|].
  rewrite not_elem_of_cons in Hx. destruct Hx as [Hne Hx].
  destruct (String.eqb_spec x y); [contradiction|auto].
Qed.

Lemma occurrences_present (x : string) (p : list string) :
  x ∈ p -> 0 < occurrences x p.
Proof.
  unfold occurrences. induction p as [|y p IH]; intros Hx; [inversion Hx|].
  cbn. destruct (String.eqb_spec x y); cbn; [lia|].
  apply elem_of_cons in Hx as [?|Hx]; [contradiction|auto].
Qed.

Lemma bump_absent (w : string) (L : list string) (f : string -> nat) :
  w ∉ L ->
  TfIdf.bump w (map (fun x => (x, f x)) L)
  = map (fun x => (x, f x)) L ++ [(w, 1)].
Proof.
  induction L as [|y L IH]; intros Hw; cbn; [reflexivity|].
  rewrite not_elem_of_cons in Hw. destruct Hw as [Hne Hw].
  destruct (String.eqb_spec y w) as [->|_]; [contradiction|].
  now rewrite IH.
Qed.

Lemma bump_present (w : string) (L : list string) (f : string -> nat) :
  NoDup L -> w ∈ L ->
  TfIdf.bump w (map (fun x => (x, f x)) L)
  = map (fun x => (x, if String.eqb x w then S (f x) else f x)) L.
Proof.
  induction L as [|y L IH]; intros Hnd Hw; [inversion Hw|].
  apply NoDup_cons in Hnd as [Hy Hnd]. cbn.
  destruct (String.eqb_spec y w) as [->|Hne].
  - f_equal. apply map_ext_in. intros x Hx.
    destruct (String.eqb_spec x w) as [->|_]; [|reflexivity].
    apply list_elem_of_In in Hx. contradiction.
  - f_equal. apply IH; [exact Hnd|].
    apply elem_of_cons in Hw as [->|Hw]; [contradiction|exact Hw].
Qed.

Lemma buildDocument_snoc (p : list string) (w : string) :
  TfIdf.buildDocument (p ++ [w]) = TfIdf.bump w (TfIdf.buildDocument p).
Proof. unfold TfIdf.buildDocument. now rewrite fold_left_app. Qed.

(** The table of a document: its distinct terms in the order of their
    first occurrence, each with the number of its occurrences. *)
Lemma buildDocument_firsts (p : list string) :
  TfIdf.buildDocument p = map (fun x => (x, occurrences x p)) (firsts p).
Proof.
  induction p as [|w p IH] using rev_ind; [reflexivity|].
  rewrite buildDocument_snoc, IH, firsts_snoc.
  destruct (JS.includes (firsts p) w) eqn:Hinc.
  - apply includes_true in Hinc.
    rewrite bump_present by (auto using NoDup_firsts).
    apply map_ext. intros x. rewrite occurrences_snoc.
    destruct (String.eqb x w); f_equal; lia.
  - apply includes_false in Hinc.
    rewrite bump_absent by exact Hinc.
    rewrite map_app. cbn. f_equal.
    + apply map_ext_in. intros x Hx. rewrite occurrences_snoc.
      destruct (String.eqb_spec x w) as [->|_]; [|f_equal; lia].
      apply list_elem_of_In in Hx. contradiction.
    + rewrite occurrences_snoc, String.eqb_refl.
      rewrite occurrences_absent; [reflexivity|].
      now rewrite <- elem_of_firsts.
Qed.

Lemma first_index_lt (x : string) (p : list string) :
  x ∈ p -> first_index x p < length p.
Proof.
  induction p as [|y p IH]; intros Hx; [inversion Hx|]. cbn.
  destruct (String.eqb_spec y x) as [->|Hne]; [lia|].
  apply elem_of_cons in Hx as [->|Hx]; [contradiction|].
  specialize (IH Hx). lia.
Qed.

Lemma first_index_app_l (x : string) (p q : list string) :
  x ∈ p -> first_index x (p ++ q) = first_index x p.
Proof.
  induction p as [|y p IH]; intros Hx; [inversion Hx|]. cbn.
  destruct (String.eqb_spec y x) as [->|Hne]; [reflexivity|].
  apply elem_of_cons in Hx as [->|Hx]; [contradiction|].
  now rewrite IH.
Qed.

Lemma first_index_snoc_new (w : string) (p : list string) :
  w ∉ p -> first_index w (p ++ [w]) = length p.
Proof.
  induction p as [|y p IH]; intros Hw; cbn.
  - now rewrite String.eqb_refl.
  - rewrite not_elem_of_cons in Hw. destruct Hw as [Hne Hw].
    destruct (String.eqb_spec y w) as [->|_]; [contradiction|].
    now rewrite IH.
Qed.

(** The distinct terms are listed by increasing first occurrence. *)
Lemma firsts_sorted (p : list string) :
  StronglySorted (fun a b => first_index a p < first_index b p) (firsts p).
Proof.
  induction p as [|w p IH] using rev_ind; [constructor|].
  assert (Hmono : StronglySorted
            (fun a b => first_index a (p ++ [w]) < first_index b (p ++ [w]))
            (firsts p)).
  { assert (Hin : Forall (fun x => x ∈ p) (firsts p)).
    { apply Forall_forall. intros x. apply elem_of_firsts. }
    revert IH Hin. generalize (firsts p) as L.
    induction L as [|a L IHL]; intros Hs Hin; [constructor|].
    apply StronglySorted_inv in Hs as [Hs Ha].
    apply Forall_cons in Hin as [Hap Hin].
    constructor; [auto|].
    rewrite Forall_forall in Ha, Hin |- *. intros b Hb.
    rewrite !first_index_app_l by auto. auto. }
  rewrite firsts_snoc.
  destruct (JS.includes (firsts p) w) eqn:Hinc; [exact Hmono|].
  apply includes_false in Hinc. rewrite elem_of_firsts in Hinc.
  apply StronglySorted_app_2; [|exact Hmono|repeat constructor].
  intros a b Ha Hb. apply list_elem_of_singleton in Hb as ->.
  rewrite elem_of_firsts in Ha.
  rewrite (first_index_app_l a), first_index_snoc_new by assumption.
  now apply first_index_lt.
Qed.

Lemma StronglySorted_map_on {A B : Type} (P : A -> Prop)
  (Q : A -> A -> Prop) (Q' : B -> B -> Prop) (f : A -> B) (l : list A) :
  Forall P l ->
  (forall a b, P a -> P b -> Q a b -> Q' (f a) (f b)) ->
  StronglySorted Q l -> StronglySorted Q' (map f l).
Proof.
  intros HP Hstep Hs. revert HP.
  induction Hs as [|a l Hs IH Ha]; intros HP; cbn; [constructor|].
  apply Forall_cons in HP as [Hpa HP].
  constructor; [auto|].
  apply List.Forall_forall. intros y Hy.
  apply in_map_iff in Hy as (b & <- & Hb).
  apply Hstep; [exact Hpa| |].
  - exact (proj1 (List.Forall_forall _ _) HP b Hb).
  - exact (proj1 (List.Forall_forall _ _) Ha b Hb).
Qed.

Lemma insert_Permutation (e : TfIdf.TermWeightEntry)
  (l : list TfIdf.TermWeightEntry) :
  TfIdf.insert e l ≡ₚ e :: l.
Proof.
  induction l as [|x l IH]; cbn [TfIdf.insert]; [reflexivity|].
  destruct (TfIdf.weight e <? TfIdf.weight x)%nat; [|reflexivity].
  rewrite IH. apply perm_swap.
Qed.

Lemma sort_Permutation (l : list TfIdf.TermWeightEntry) : TfIdf.sort l ≡ₚ l.
Proof.
  induction l as [|e l IH]; cbn; [reflexivity|].
  now rewrite insert_Permutation, IH.
Qed.

Section Stable_sort.
Variable R : TfIdf.TermWeightEntry -> TfIdf.TermWeightEntry -> Prop.

Lemma insert_sorted (e : TfIdf.TermWeightEntry)
  (l : list TfIdf.TermWeightEntry) :
  Forall (R e) l ->
  StronglySorted (listed_before R) l ->
  StronglySorted (listed_before R) (TfIdf.insert e l).
Proof.
  intros He Hs. revert He.
  induction Hs as [|x l Hs IH Hx]; intros He; cbn [TfIdf.insert].
  - repeat constructor.
  - apply Forall_cons in He as [Hex He].
    destruct (Nat.ltb_spec (TfIdf.weight e) (TfIdf.weight x)) as [Hlt|Hge].
    + constructor; [auto|].
      rewrite insert_Permutation. constructor; [now left|exact Hx].
    + constructor; [now constructor|].
      constructor.
      * destruct (Nat.eq_dec (TfIdf.weight e) (TfIdf.weight x)) as [Heq|Hne];
          [right; now split|left; lia].
      * rewrite Forall_forall in Hx, He |- *. intros y Hy.
        destruct (Hx y Hy) as [Hlt|[Heq _]].
        -- left. lia.
        -- destruct (Nat.eq_dec (TfIdf.weight e) (TfIdf.weight y)) as [Hey|Hney];
             [right; split; auto|left; lia].
Qed.

(** The sort is stable: entries are listed by descending weight, and
    entries of equal weight keep the order they had. *)
Lemma sort_sorted (l : list TfIdf.TermWeightEntry) :
  StronglySorted R l -> StronglySorted (listed_before R) (TfIdf.sort l).
Proof.
  intros Hs. induction Hs as [|e l Hs IH He]; cbn; [constructor|].
  apply insert_sorted; [|exact IH].
  now rewrite sort_Permutation.
Qed.

End Stable_sort.

(** The terms of a document as the indexer lists them. *)
Lemma listing_terms (tokens : list string) :
  let listing := TfIdf.sort (TfIdf.entries (TfIdf.buildDocument tokens)) in
  map TfIdf.term listing ≡ₚ firsts tokens
  /\ StronglySorted (ranks_before tokens) (map TfIdf.term listing).
Proof.
  cbv zeta. rewrite buildDocument_firsts.
  unfold TfIdf.entries. rewrite map_map. cbn [fst snd].
  set (mk := fun x => {| TfIdf.term := x; TfIdf.weight := occurrences x tokens |}).
  split.
  - rewrite sort_Permutation, map_map. cbn. now rewrite map_id.
  - apply (StronglySorted_map_on
             (fun e => TfIdf.weight e = occurrences (TfIdf.term e) tokens)
             (listed_before
                (fun a b => first_index (TfIdf.term a) tokens
                            < first_index (TfIdf.term b) tokens))).
    + rewrite sort_Permutation. apply Forall_forall. intros e He.
      apply list_elem_of_In, in_map_iff in He as (x & <- & _). reflexivity.
    + intros a b Ha Hb [Hlt|[Heq Hidx]]; [left|right]; rewrite <- ?Ha, <- ?Hb;
        auto.
    + apply sort_sorted.
      apply (StronglySorted_map_on (fun _ => True)
               (fun a b => first_index a tokens < first_index b tokens)).
      * apply Forall_forall. auto.
      * auto.
      * apply firsts_sorted.
Qed.

End Indexer_proofs.

Section AutoTags_proofs.
Context `{Tokenizer} `{Extractor}.
Import ContentService Props.

Lemma head_of_listing (tokens L : list string) (top : string) :
  StronglySorted (ranks_before tokens) L ->
  top ∈ L ->
  (forall t, t ∈ L -> t <> top -> occurrences t tokens < occurrences top tokens) ->
  head L = Some top.
Proof.
  intros Hs Htop Hless. destruct Hs as [|h L Hs Hh]; [inversion Htop|].
  cbn. f_equal. destruct (String.eqb_spec h top) as [Heq|Hne]; [exact Heq|].
  apply elem_of_cons in Htop as [->|Htop]; [contradiction|].
  pose proof (Hless h ltac:(left) Hne) as Hlt.
  rewrite Forall_forall in Hh.
  destruct (Hh top Htop) as [Hgt|[Heq _]]; lia.
Qed.

Lemma head_take {A : Type} (n : nat) (l : list A) :
  head (take (S n) l) = head l.
Proof. now destruct l. Qed.

(** C2: the tags of an analysis are at most five terms of the text,
    without repetition. Together with the terms that were cut off they
    are the distinct terms of the text, listed so that a term comes
    before every term that occurs less often and before every term that
    occurs as often but first occurs later. There are five tags, or as
    many as the text has distinct terms when these are fewer; there is
    none when the text is empty. When "apple" occurs 10 times among 50
    tokens and every other term once, "apple" is the first tag. *)
Theorem C2_autoTags_ranking (textBody : string) (w : World) :
  let tokens := tokenize (extractedText textBody) in
  exists r w',
    performContentAnalysis textBody w = (Ok r, w')
    /\ length (autoTags r) <= 5
    /\ NoDup (autoTags r)
    /\ (exists rest,
          NoDup (autoTags r ++ rest)
          /\ (forall t, t ∈ autoTags r ++ rest <-> t ∈ tokens)
          /\ StronglySorted (ranks_before tokens) (autoTags r ++ rest))
    /\ length (autoTags r) = min 5 (length (remove_dups tokens))
    /\ (extractedText textBody = EmptyString -> autoTags r = [])
    /\ (occurrences "apple" tokens = 10 ->
        length tokens = 50 ->
        (forall t, t ∈ tokens -> t <> "apple" -> occurrences t tokens = 1) ->
        head (autoTags r) = Some "apple").
Proof.
  cbv zeta.
  destruct (performContentAnalysis_run textBody w)
    as (r & w' & Hrun & _ & _ & Htags & _).
  exists r, w'. split; [exact Hrun|].
  destruct (listing_terms (tokenize (extractedText textBody))) as [Hperm Hsorted].
  rewrite <- firstn_map in Htags.
  set (tokens := tokenize (extractedText textBody)) in *.
  set (ranked := map TfIdf.term
                   (TfIdf.sort (TfIdf.entries (TfIdf.buildDocument tokens)))) in *.
  assert (Hnd : NoDup ranked) by (rewrite Hperm; apply NoDup_firsts).
  assert (Hmem : forall t, t ∈ ranked <-> t ∈ tokens).
  { intros t. rewrite Hperm. apply elem_of_firsts. }
  assert (Hsplit : autoTags r ++ drop 5 ranked = ranked).
  { rewrite Htags. apply take_drop. }
  split; [rewrite Htags, length_take; lia|].
  split; [rewrite <- Hsplit in Hnd; now apply NoDup_app in Hnd|].
  split; [exists (drop 5 ranked); now rewrite Hsplit|].
  split.
  { rewrite Htags, length_take. f_equal. apply Permutation_length.
    apply NoDup_Permutation; [exact Hnd|apply NoDup_remove_dups|].
    intros t. now rewrite Hmem, elem_of_remove_dups. }
  split.
  { intros Hempty. rewrite Htags. subst ranked tokens.
    now rewrite Hempty, tokenize_empty. }
  intros Happle _ Hothers. rewrite Htags, head_take.
  apply (head_of_listing tokens); [exact Hsorted| |].
  - apply Hmem. destruct (decide ("apple" ∈ tokens)) as [Hin|Hout]; [exact Hin|].
    apply occurrences_absent in Hout. lia.
  - intros t Ht Hne. rewrite Happle, (Hothers t); [lia|now apply Hmem|exact Hne].
Qed.

End AutoTags_proofs.

(** The sample text with ten times "apple" among fifty words. *)
Lemma C2_autoTags_ranking_witness :
  exists r w',
    ContentService.performContentAnalysis appleText (emptyWorld taxonomy)
    = (Ok r, w')
    /\ head (autoTags r) = Some "apple".
Proof.
  destruct (C2_autoTags_ranking appleText (emptyWorld taxonomy))
    as (r & w' & Hrun & _ & _ & _ & _ & _ & Happle).
  exists r, w'. split; [exact Hrun|].
  apply Happle; [reflexivity|reflexivity|].
  intros t Ht Hne.
  assert (Hall : forallb
            (fun t => String.eqb t "apple"
                      || (Props.occurrences t (tokenize (Props.extractedText appleText)) =? 1)%nat)
            (tokenize (Props.extractedText appleText)) = true)
    by (vm_compute; reflexivity).
  rewrite forallb_forall in Hall.
  apply list_elem_of_In in Ht. specialize (Hall t Ht).
  apply orb_true_iff in Hall as [Heq|Hone].
  - apply String.eqb_eq in Heq. contradiction.
  - now apply Nat.eqb_eq in Hone.
Defined.

(** ** The follow toggle *)

Section Follow_proofs.
Import InteractionsService.

Lemma matchesFilter_spec (follower followee : string) (d : Follow) :
  matchesFilter follower followee d = true
  <-> followerId d = follower /\ followingId d = followee.
Proof.
  unfold matchesFilter. rewrite andb_true_iff, !String.eqb_eq. reflexivity.
Qed.

Lemma Follow_findOne_some (follower followee : string)
  (db : gmap positive Follow) (id : positive) (d : Follow) :
  List.find (fun p => matchesFilter follower followee (snd p)) (map_to_list db)
  = Some (id, d) ->
  db !! id = Some d /\ followerId d = follower /\ followingId d = followee.
Proof.
  intros Hfind. apply find_some in Hfind as [Hin Hm]. cbn in Hm.
  apply list_elem_of_In, elem_of_map_to_list in Hin.
  apply matchesFilter_spec in Hm. tauto.
Qed.

Lemma Follow_findOne_none (follower followee : string)
  (db : gmap positive Follow) :
  List.find (fun p => matchesFilter follower followee (snd p)) (map_to_list db)
  = None ->
  forall id d, db !! id = Some d ->
    ~ (followerId d = follower /\ followingId d = followee).
Proof.
  intros Hfind id d Hd Hm.
  apply elem_of_map_to_list, list_elem_of_In in Hd.
  pose proof (find_none _ _ Hfind _ Hd) as Hno. cbn in Hno.
  apply matchesFilter_spec in Hm. congruence.
Qed.

(** C10: when the two identifiers are equal the service throws
    "Users cannot follow themselves." and the collection is left as it
    was. When they differ and no stored document relates them, a
    document relating them is stored under an identifier that was free
    and the service returns [following: true]; when they differ and some
    stored document relates them, one such document is deleted and the
    service returns [following: false]. *)
Theorem C10_toggleFollow (follower followee : string)
  (db : gmap positive Follow) :
  (follower = followee ->
   toggleFollowService follower followee db
   = (Throw "Users cannot follow themselves.", db))
  /\ (follower <> followee ->
      ((forall id d, db !! id = Some d ->
          ~ (followerId d = follower /\ followingId d = followee)) ->
       exists id,
         db !! id = None
         /\ toggleFollowService follower followee db
            = (Ok {| following := true |},
               <[id := {| followerId := follower; followingId := followee |}]> db))
      /\ ((exists id d, db !! id = Some d
                        /\ followerId d = follower /\ followingId d = followee) ->
          exists id d,
            db !! id = Some d
            /\ followerId d = follower /\ followingId d = followee
            /\ toggleFollowService follower followee db
               = (Ok {| following := false |}, delete id db))).
Proof.
  split.
  - intros ->. unfold toggleFollowService. now rewrite String.eqb_refl.
  - intros Hne. apply String.eqb_neq in Hne.
    unfold toggleFollowService, bind, Follow_findOne, Follow_findByIdAndDelete,
      Follow_create, ret.
    rewrite Hne.
    destruct (List.find _ (map_to_list db)) as [[id d]|] eqn:Hfind.
    + apply Follow_findOne_some in Hfind as (Hd & Hf & Hg). split.
      * intros Hnone. exfalso. apply (Hnone id d Hd). now split.
      * intros _. now exists id, d.
    + pose proof (Follow_findOne_none _ _ _ Hfind) as Hnone. split.
      * intros _. exists (fresh (dom db)). split; [|reflexivity].
        apply not_elem_of_dom. apply is_fresh.
      * intros (id & d & Hd & Hm). exfalso. exact (Hnone id d Hd Hm).
Qed.

End Follow_proofs.

(** The three cases of the toggle on the follow of "bob" by "alice". *)
Lemma C10_toggleFollow_witness :
  InteractionsService.toggleFollowService "alice" "alice" {[ 1%positive := alice_bob ]}
  = (Throw "Users cannot follow themselves.", {[ 1%positive := alice_bob ]})
  /\ (exists id,
        (∅ : gmap positive InteractionsService.Follow) !! id = None
        /\ InteractionsService.toggleFollowService "alice" "bob" ∅
           = (Ok {| InteractionsService.following := true |},
              <[id := alice_bob]> ∅))
  /\ (exists id d,
        ({[ 1%positive := alice_bob ]} : gmap positive InteractionsService.Follow)
          !! id = Some d
        /\ InteractionsService.toggleFollowService "alice" "bob"
             {[ 1%positive := alice_bob ]}
           = (Ok {| InteractionsService.following := false |},
              delete id {[ 1%positive := alice_bob ]})).
Proof.
  split; [|split].
  - apply (C10_toggleFollow "alice" "alice"). reflexivity.
  - apply (C10_toggleFollow "alice" "bob" ∅); [discriminate|].
    intros id d Hd. rewrite lookup_empty in Hd. discriminate.
  - destruct (C10_toggleFollow "alice" "bob" {[ 1%positive := alice_bob ]})
      as [_ Hdiff].
    destruct (Hdiff ltac:(discriminate)) as [_ Hdel].
    destruct Hdel as (id & d & Hd & _ & _ & Hrun).
    + exists 1%positive, alice_bob. split; [apply lookup_singleton_eq|].
      split; reflexivity.
    + now exists id, d.
Defined.

(** ** The store operations *)

Section Mongo_proofs.
Context {A : Type}.

Lemma findOne_Some (filter : A -> bool) (m : gmap positive A)
  (id : positive) (d : A) :
  Mongo.findOne filter m = Some (id, d) -> m !! id = Some d /\ filter d = true.
Proof.
  unfold Mongo.findOne. intros Hfind.
  apply find_some in Hfind as [Hin Hf].
  apply list_elem_of_In, elem_of_map_to_list in Hin. now split.
Qed.

Lemma findOne_None (filter : A -> bool) (m : gmap positive A) :
  Mongo.findOne filter m = None ->
  forall id d, m !! id = Some d -> filter d = false.
Proof.
  unfold Mongo.findOne. intros Hfind id d Hd.
  apply elem_of_map_to_list, list_elem_of_In in Hd.
  exact (find_none _ _ Hfind _ Hd).
Qed.

Lemma findOne_is_Some (filter : A -> bool) (m : gmap positive A)
  (id : positive) (d : A) :
  m !! id = Some d -> filter d = true ->
  exists id' d', Mongo.findOne filter m = Some (id', d').
Proof.
  intros Hd Hf. destruct (Mongo.findOne filter m) as [[id' d']|] eqn:Hfind;
    [now exists id', d'|].
  rewrite (findOne_None _ _ Hfind id d Hd) in Hf. discriminate.
Qed.

Lemma length_filter_Permutation (f : positive * A -> bool)
  (l k : list (positive * A)) :
  l ≡ₚ k -> length (List.filter f l) = length (List.filter f k).
Proof.
  induction 1 as [|x l k _ IH|x y l|l k j _ IH1 _ IH2]; cbn;
    [reflexivity| | |congruence].
  - destruct (f x); cbn; congruence.
  - destruct (f x), (f y); reflexivity.
Qed.

Lemma countDocuments_insert (filter : positive -> A -> bool)
  (m : gmap positive A) (id : positive) (d : A) :
  m !! id = None ->
  Mongo.countDocuments filter (<[id := d]> m)
  = Mongo.countDocuments filter m + (if filter id d then 1 else 0).
Proof.
  intros Hnone. unfold Mongo.countDocuments, Mongo.find.
  rewrite (length_filter_Permutation _ _ _ (map_to_list_insert m id d Hnone)).
  cbn. destruct (filter id d); cbn; lia.
Qed.

Lemma countDocuments_delete (filter : positive -> A -> bool)
  (m : gmap positive A) (id : positive) (d : A) :
  m !! id = Some d ->
  Mongo.countDocuments filter m
  = Mongo.countDocuments filter (delete id m) + (if filter id d then 1 else 0).
Proof.
  intros Hd. unfold Mongo.countDocuments, Mongo.find.
  rewrite <- (length_filter_Permutation _ _ _ (map_to_list_delete m id d Hd)).
  cbn. destruct (filter id d); cbn; lia.
Qed.

Lemma countDocuments_replace (filter : positive -> A -> bool)
  (m : gmap positive A) (id : positive) (d d' : A) :
  m !! id = Some d ->
  filter id d' = filter id d ->
  Mongo.countDocuments filter (<[id := d']> m) = Mongo.countDocuments filter m.
Proof.
  intros Hd Hsame.
  rewrite <- (insert_delete_eq m id d').
  rewrite countDocuments_insert by apply lookup_delete_eq.
  rewrite (countDocuments_delete filter m id d Hd). now rewrite Hsame.
Qed.

Lemma create_fresh (d : A) (m : gmap positive A) :
  m !! fst (Mongo.create d m) = None
  /\ snd (Mongo.create d m) = <[fst (Mongo.create d m) := d]> m.
Proof.
  unfold Mongo.create. cbn. split; [|reflexivity].
  apply not_elem_of_dom, is_fresh.
Qed.

Lemma elem_of_find (filter : positive -> A -> bool) (m : gmap positive A)
  (id : positive) (d : A) :
  (id, d) ∈ Mongo.find filter m <-> m !! id = Some d /\ filter id d = true.
Proof.
  unfold Mongo.find. rewrite list_elem_of_In, filter_In.
  rewrite <- list_elem_of_In, elem_of_map_to_list. reflexivity.
Qed.

Lemma NoDup_find (filter : positive -> A -> bool) (m : gmap positive A) :
  NoDup (map fst (Mongo.find filter m)).
Proof.
  unfold Mongo.find.
  pose proof (NoDup_fst_map_to_list m) as Hnd. revert Hnd.
  generalize (map_to_list m) as l.
  induction l as [|p l IH]; intros Hnd; cbn; [constructor|].
  apply NoDup_cons in Hnd as [Hp Hnd].
  destruct (filter p.1 p.2); cbn; [|auto].
  apply NoDup_cons. split; [|auto].
  intros Hin. apply Hp.
  apply list_elem_of_In, in_map_iff in Hin as (q & Hq & Hin).
  apply filter_In in Hin as [Hin _].
  apply list_elem_of_In. apply in_map_iff. exists q. now split.
Qed.

End Mongo_proofs.

(** ** Agreement of content documents *)

Section Agreement_proofs.
Import Schema StoreProps.

Lemma same_content_fields_refl (c : Content) : same_content_fields c c.
Proof. unfold same_content_fields. repeat split; reflexivity. Qed.

Lemma contents_agree_eq (m2 m : gmap positive Content) :
  m2 = m -> contents_agree m2 m.
Proof.
  intros -> k. destruct (m !! k) as [c|]; constructor.
  split; [apply same_content_fields_refl|]. repeat split; reflexivity.
Qed.

End Agreement_proofs.

(** ** Likes *)

Section Like_proofs.
Import Schema LikesAndComments StoreProps.

Lemma likeFilter_spec (userId : string) (contentId : positive) (l : Like) :
  likeFilter userId contentId l = true
  <-> like_userId l = userId /\ like_contentId l = contentId.
Proof.
  unfold likeFilter. rewrite andb_true_iff, String.eqb_eq, Pos.eqb_eq.
  reflexivity.
Qed.

(** The two ways a toggle of a like can go. *)
Lemma toggleLikeService_cases (userId : string) (contentId : positive) (db : Db) :
  (exists id l,
      Like_collection db !! id = Some l
      /\ like_userId l = userId /\ like_contentId l = contentId
      /\ toggleLikeService userId contentId db
         = (Ok {| liked := false |},
            with_contents (alter (inc_likes (-1)) contentId)
              (with_likes (delete id) db)))
  \/ (~ has_liked db userId contentId
      /\ exists id,
          Like_collection db !! id = None
          /\ toggleLikeService userId contentId db
             = (Ok {| liked := true |},
                with_contents (alter (inc_likes 1) contentId)
                  (with_likes
                     (insert id {| like_userId := userId;
                                   like_contentId := contentId |}) db))).
Proof.
  unfold toggleLikeService, bind, Like_findOne.
  destruct (Mongo.findOne (likeFilter userId contentId) (Like_collection db))
    as [[id l]|] eqn:Hfind.
  - left. apply findOne_Some in Hfind as [Hl Hm].
    apply likeFilter_spec in Hm as [Hu Hc].
    exists id, l. repeat (split; [assumption|]). reflexivity.
  - right. split.
    + intros (id & l & Hl & Hu & Hc).
      pose proof (findOne_None _ _ Hfind id l Hl) as Hno.
      assert (Hyes : likeFilter userId contentId l = true)
        by now apply likeFilter_spec.
      congruence.
    + exists (fresh (dom (Like_collection db))). split; [|reflexivity].
      apply not_elem_of_dom, is_fresh.
Qed.

Lemma likesFor_insert (k : positive) (likes : gmap positive Like)
  (id : positive) (l : Like) :
  likes !! id = None ->
  likesFor k (<[id := l]> likes)
  = likesFor k likes + (if Pos.eqb (like_contentId l) k then 1 else 0).
Proof. intros Hnone. unfold likesFor. now rewrite countDocuments_insert. Qed.

Lemma likesFor_delete (k : positive) (likes : gmap positive Like)
  (id : positive) (l : Like) :
  likes !! id = Some l ->
  likesFor k likes
  = likesFor k (delete id likes) + (if Pos.eqb (like_contentId l) k then 1 else 0).
Proof. intros Hl. unfold likesFor. now rewrite (countDocuments_delete _ _ id l). Qed.

(** X1: a toggle keeps the like counters exact. *)
Theorem toggleLike_keeps_counters (userId : string) (contentId : positive) (db : Db) :
  likes_counted db ->
  likes_counted (snd (toggleLikeService userId contentId db)).
Proof.
  intros Hinv.
  destruct (toggleLikeService_cases userId contentId db)
    as [(id & l & Hl & Hu & Hc & Hrun)|(_ & id & Hnone & Hrun)];
    rewrite Hrun; cbn [snd]; intros k c Hk; cbn in Hk |- *.
  - rewrite lookup_alter in Hk. destruct (decide (contentId = k)) as [->|Hne].
    + destruct (Content_collection db !! k) as [c0|] eqn:Hc0; [|discriminate].
      injection Hk as <-. cbn. rewrite (Hinv k c0 Hc0).
      rewrite (likesFor_delete k _ id l Hl), Hc, Pos.eqb_refl. lia.
    + rewrite (Hinv k c Hk), (likesFor_delete k _ id l Hl).
      rewrite Hc. apply Pos.eqb_neq in Hne. rewrite Hne. lia.
  - rewrite likesFor_insert by exact Hnone. cbn [like_contentId].
    rewrite lookup_alter in Hk. destruct (decide (contentId = k)) as [->|Hne].
    + destruct (Content_collection db !! k) as [c0|] eqn:Hc0; [|discriminate].
      injection Hk as <-. cbn. rewrite (Hinv k c0 Hc0), Pos.eqb_refl. lia.
    + rewrite (Hinv k c Hk). apply Pos.eqb_neq in Hne. rewrite Hne. lia.
Qed.

Lemma inc_likes_undo (c : Content) : inc_likes (-1) (inc_likes 1 c) = c.
Proof. destruct c. unfold inc_likes. cbn. f_equal. lia. Qed.

Lemma alter_undo {V : Type} (f g : V -> V) (k : positive) (m : gmap positive V) :
  (forall v, g (f v) = v) -> alter g k (alter f k m) = m.
Proof.
  intros Hundo. rewrite alter_alter_eq. apply alter_id.
  intros v _. apply Hundo.
Qed.

(** X2: two toggles by a user who had not liked the content give
    [liked: true], then [liked: false]; afterwards the likes, the
    comments and the users are as they were, and the contents are stored
    under the same identifiers and agree with what they were on every
    field of the model, the like counter included. *)
Theorem toggleLike_twice_restores (userId : string) (contentId : positive) (db : Db) :
  ~ has_liked db userId contentId ->
  exists db1 db2,
    toggleLikeService userId contentId db = (Ok {| liked := true |}, db1)
    /\ toggleLikeService userId contentId db1 = (Ok {| liked := false |}, db2)
    /\ Like_collection db2 = Like_collection db
    /\ Comment_collection db2 = Comment_collection db
    /\ User_collection db2 = User_collection db
    /\ contents_agree (Content_collection db2) (Content_collection db).
Proof.
  intros Hnot.
  destruct (toggleLikeService_cases userId contentId db)
    as [(id & l & Hl & Hu & Hc & _)|(_ & id & Hnone & Hrun)].
  { exfalso. apply Hnot. now exists id, l. }
  eexists. rewrite Hrun.
  match goal with |- exists _, (_, ?d) = _ /\ _ => set (db1 := d) end.
  destruct (toggleLikeService_cases userId contentId db1)
    as [(id' & l' & Hl' & Hu' & Hc' & Hrun')|(Hnot' & _)].
  - eexists. split; [reflexivity|]. split; [exact Hrun'|].
    assert (Hid : id' = id).
    { destruct (decide (id' = id)) as [Heq|Hne]; [exact Heq|].
      exfalso. apply Hnot. exists id', l'.
      cbn in Hl'. rewrite lookup_insert_ne in Hl' by congruence. now split. }
    subst id'. cbn.
    split; [now apply delete_insert_id|].
    split; [reflexivity|]. split; [reflexivity|].
    apply contents_agree_eq. apply alter_undo. exact inc_likes_undo.
  - exfalso. apply Hnot'.
    exists id, {| like_userId := userId; like_contentId := contentId |}.
    cbn. rewrite lookup_insert_eq. now split.
Qed.

(** X3: when no user has two likes for one content, this stays so after
    a toggle, and the returned status tells whether the user likes the
    content afterwards. *)
Theorem toggleLike_status_is_final (userId : string) (contentId : positive)
  (db : Db) :
  likes_unique db ->
  exists r db',
    toggleLikeService userId contentId db = (Ok r, db')
    /\ likes_unique db'
    /\ (liked r = true <-> has_liked db' userId contentId).
Proof.
  intros Huniq.
  destruct (toggleLikeService_cases userId contentId db)
    as [(id & l & Hl & Hu & Hc & Hrun)|(Hnot & id & Hnone & Hrun)];
    rewrite Hrun; eexists; eexists; (split; [reflexivity|]); split.
  - intros i j li lj Hi Hj. cbn in Hi, Hj.
    apply lookup_delete_Some in Hi as [_ Hi].
    apply lookup_delete_Some in Hj as [_ Hj]. eauto.
  - cbn [liked]. split; [discriminate|].
    intros (j & lj & Hj & Huj & Hcj). exfalso. cbn in Hj.
    apply lookup_delete_Some in Hj as [Hne Hj].
    apply Hne. apply (Huniq id j l lj); congruence.
  - intros i j li lj Hi Hj Hsu Hsc. cbn in Hi, Hj.
    apply lookup_insert_Some in Hi as [[<- <-]|[Hni Hi]];
      apply lookup_insert_Some in Hj as [[<- <-]|[Hnj Hj]].
    + reflexivity.
    + exfalso. apply Hnot. exists j, lj. cbn in Hsu, Hsc. now split.
    + exfalso. apply Hnot. exists i, li. cbn in Hsu, Hsc. now split.
    + eauto.
  - cbn [liked]. split; [intros _|reflexivity].
    exists id, {| like_userId := userId; like_contentId := contentId |}.
    cbn. rewrite lookup_insert_eq. now split.
Qed.

(** X4: a toggle leaves the comments, the users and every content other
    than the one it names as they were. The content it names keeps its
    view counter, its comment counter and its other fields of the model,
    and its like counter moves by one, up when the result is
    [liked: true] and down otherwise. When the identifier names no
    content no content changes, and the like is stored all the same. *)
Theorem toggleLike_frame (userId : string) (contentId : positive) (db : Db) :
  exists r db',
    toggleLikeService userId contentId db = (Ok r, db')
    /\ Comment_collection db' = Comment_collection db
    /\ User_collection db' = User_collection db
    /\ (forall k, k <> contentId ->
          Content_collection db' !! k = Content_collection db !! k)
    /\ (forall c,
          Content_collection db !! contentId = Some c ->
          exists c',
            Content_collection db' !! contentId = Some c'
            /\ likesCount c' = (likesCount c + if liked r then 1 else -1)%Z
            /\ viewsCount c' = viewsCount c
            /\ commentsCount c' = commentsCount c
            /\ same_content_fields c' c)
    /\ (Content_collection db !! contentId = None ->
        Content_collection db' = Content_collection db
        /\ (liked r = true -> has_liked db' userId contentId)).
Proof.
  destruct (toggleLikeService_cases userId contentId db)
    as [(id & l & Hl & Hu & Hc & Hrun)|(Hnot & id & Hnone & Hrun)];
    rewrite Hrun; eexists; eexists; (split; [reflexivity|]); cbn;
    (split; [reflexivity|]); (split; [reflexivity|]);
    (split; [intros k Hk; now rewrite lookup_alter_ne by congruence|]);
    (split;
     [intros c Hcur; eexists; split;
      [rewrite lookup_alter_eq, Hcur; reflexivity|];
      cbn; split; [reflexivity|]; split; [reflexivity|];
      split; [reflexivity|]; same_fields|]);
    intros Hmissing.
  - split; [|discriminate].
    apply map_eq. intros k. rewrite lookup_alter.
    destruct (decide (contentId = k)) as [->|]; [now rewrite Hmissing|reflexivity].
  - split.
    + apply map_eq. intros k. rewrite lookup_alter.
      destruct (decide (contentId = k)) as [->|]; [now rewrite Hmissing|reflexivity].
    + intros _.
      exists id, {| like_userId := userId; like_contentId := contentId |}.
      cbn. rewrite lookup_insert_eq. now split.
Qed.

End Like_proofs.

(** ** Follows *)

Section Follow_round_trip.
Import InteractionsService StoreProps.

(** The two ways a toggle of a follow between two users can go. *)
Lemma toggleFollowService_cases (follower followee : string)
  (db : gmap positive Follow) :
  follower <> followee ->
  (exists id d,
      db !! id = Some d
      /\ followerId d = follower /\ followingId d = followee
      /\ toggleFollowService follower followee db
         = (Ok {| following := false |}, delete id db))
  \/ (~ is_following db follower followee
      /\ exists id,
          db !! id = None
          /\ toggleFollowService follower followee db
             = (Ok {| following := true |},
                <[id := {| followerId := follower; followingId := followee |}]> db)).
Proof.
  intros Hne. apply String.eqb_neq in Hne.
  unfold toggleFollowService, bind, Follow_findOne, Follow_findByIdAndDelete,
    Follow_create, ret.
  rewrite Hne.
  destruct (List.find _ (map_to_list db)) as [[id d]|] eqn:Hfind.
  - left. apply Follow_findOne_some in Hfind as (Hd & Hf & Hg).
    now exists id, d.
  - right. pose proof (Follow_findOne_none _ _ _ Hfind) as Hnone. split.
    + intros (id & d & Hd & Hm). exact (Hnone id d Hd Hm).
    + exists (fresh (dom db)). split; [|reflexivity].
      apply not_elem_of_dom, is_fresh.
Qed.

(** X5: two toggles between users of whom the first did not follow the
    second give [following: true], then [following: false], and leave
    the collection as it was. *)
Theorem toggleFollow_twice_restores (follower followee : string)
  (db : gmap positive Follow) :
  follower <> followee ->
  ~ is_following db follower followee ->
  exists db1,
    toggleFollowService follower followee db = (Ok {| following := true |}, db1)
    /\ toggleFollowService follower followee db1
       = (Ok {| following := false |}, db).
Proof.
  intros Hne Hnot.
  destruct (toggleFollowService_cases follower followee db Hne)
    as [(id & d & Hd & Hf & Hg & _)|(_ & id & Hnone & Hrun)].
  { exfalso. apply Hnot. now exists id, d. }
  eexists. split; [exact Hrun|].
  match goal with |- toggleFollowService _ _ ?d = _ => set (db1 := d) end.
  destruct (toggleFollowService_cases follower followee db1 Hne)
    as [(id' & d' & Hd' & Hf' & Hg' & Hrun')|(Hnot' & _)].
  - rewrite Hrun'. f_equal.
    assert (Hid : id' = id).
    { destruct (decide (id' = id)) as [Heq|Hnid]; [exact Heq|].
      exfalso. apply Hnot. exists id', d'.
      unfold db1 in Hd'. rewrite lookup_insert_ne in Hd' by congruence.
      now split. }
    subst id'. unfold db1. now apply delete_insert_id.
  - exfalso. apply Hnot'.
    exists id, {| followerId := follower; followingId := followee |}.
    unfold db1. rewrite lookup_insert_eq. now split.
Qed.

(** X6: when no pair of users has two follows, this stays so after a
    toggle, and the returned status tells whether the first user follows
    the second afterwards. *)
Theorem toggleFollow_status_is_final (follower followee : string)
  (db : gmap positive Follow) :
  follower <> followee ->
  follows_unique db ->
  exists r db',
    toggleFollowService follower followee db = (Ok r, db')
    /\ follows_unique db'
    /\ (following r = true <-> is_following db' follower followee).
Proof.
  intros Hne Huniq.
  destruct (toggleFollowService_cases follower followee db Hne)
    as [(id & d & Hd & Hf & Hg & Hrun)|(Hnot & id & Hnone & Hrun)];
    rewrite Hrun; eexists; eexists; (split; [reflexivity|]); split.
  - intros i j di dj Hi Hj.
    apply lookup_delete_Some in Hi as [_ Hi].
    apply lookup_delete_Some in Hj as [_ Hj]. eauto.
  - cbn [following]. split; [discriminate|].
    intros (j & dj & Hj & Hfj & Hgj). exfalso.
    apply lookup_delete_Some in Hj as [Hnj Hj].
    apply Hnj. apply (Huniq id j d dj); congruence.
  - intros i j di dj Hi Hj Hsf Hsg.
    apply lookup_insert_Some in Hi as [[<- <-]|[Hni Hi]];
      apply lookup_insert_Some in Hj as [[<- <-]|[Hnj Hj]].
    + reflexivity.
    + exfalso. apply Hnot. exists j, dj. cbn in Hsf, Hsg. now split.
    + exfalso. apply Hnot. exists i, di. cbn in Hsf, Hsg. now split.
    + eauto.
  - cbn [following]. split; [intros _|reflexivity].
    exists id, {| followerId := follower; followingId := followee |}.
    rewrite lookup_insert_eq. now split.
Qed.

End Follow_round_trip.

(** ** Comments *)

Section Comment_proofs.
Import Schema LikesAndComments StoreProps.

Lemma addCommentService_run (userId : string) (contentId : positive)
  (text : string) (parentId : option positive) (db : Db) :
  let c := {| comment_userId := userId; comment_contentId := contentId;
              comment_text := text; comment_parentId := parentId |} in
  exists id,
    Comment_collection db !! id = None
    /\ addCommentService userId contentId text parentId db
       = (Ok (id, c),
          with_contents (alter (inc_comments 1) contentId)
            (with_comments (insert id c) db)).
Proof.
  cbv zeta. exists (fresh (dom (Comment_collection db))).
  split; [apply not_elem_of_dom, is_fresh|reflexivity].
Qed.

Lemma Comment_findOwned_cases (userId : string) (commentId : positive) (db : Db) :
  (exists c,
      Comment_collection db !! commentId = Some c
      /\ comment_userId c = userId
      /\ Comment_findOwned userId commentId db = (Ok (Some c), db))
  \/ ((forall c, Comment_collection db !! commentId = Some c ->
         comment_userId c <> userId)
      /\ Comment_findOwned userId commentId db = (Ok None, db)).
Proof.
  unfold Comment_findOwned.
  destruct (Comment_collection db !! commentId) as [c|] eqn:Hc.
  - destruct (String.eqb_spec (comment_userId c) userId) as [Hu|Hu].
    + left. now exists c.
    + right. split; [|reflexivity]. intros c' Hc'. now injection Hc' as <-.
  - right. split; [|reflexivity]. intros c' Hc'. discriminate.
Qed.

(** X7: only the user a comment belongs to can edit it. For a comment
    that is not stored or belongs to another user the service throws and
    the store is left as it was; for the owner the text is replaced and
    nothing else changes: the other fields of the comment, the other
    comments, the contents and their counters stay. *)
Theorem updateComment_only_owner (userId : string) (commentId : positive)
  (text : string) (db : Db) :
  ((forall c, Comment_collection db !! commentId = Some c ->
      comment_userId c <> userId) ->
   updateCommentService userId commentId text db
   = (Throw "Comment not found or user not authorized to edit.", db))
  /\ (forall c,
        Comment_collection db !! commentId = Some c ->
        comment_userId c = userId ->
        exists db',
          updateCommentService userId commentId text db
          = (Ok (commentId, set_text text c), db')
          /\ Comment_collection db' !! commentId = Some (set_text text c)
          /\ comment_userId (set_text text c) = comment_userId c
          /\ comment_contentId (set_text text c) = comment_contentId c
          /\ comment_parentId (set_text text c) = comment_parentId c
          /\ comment_text (set_text text c) = text
          /\ (forall k, k <> commentId ->
                Comment_collection db' !! k = Comment_collection db !! k)
          /\ Content_collection db' = Content_collection db
          /\ Like_collection db' = Like_collection db).
Proof.
  unfold updateCommentService, bind.
  destruct (Comment_findOwned_cases userId commentId db)
    as [(c & Hc & Hu & Hfind)|(Hnot & Hfind)]; rewrite Hfind; split.
  - intros Hno. exfalso. exact (Hno c Hc Hu).
  - intros c' Hc' _. rewrite Hc in Hc'. injection Hc' as <-.
    eexists. split; [reflexivity|]. cbn.
    split; [apply lookup_insert_eq|].
    repeat (split; [reflexivity|]).
    split; [|split; reflexivity].
    intros k Hk. now rewrite lookup_insert_ne by congruence.
  - intros _. reflexivity.
  - intros c Hc Hu. exfalso. exact (Hnot c Hc Hu).
Qed.

(** X8: only the user a comment belongs to can delete it. For a comment
    that is not stored or belongs to another user the service throws and
    the store is left as it was; for the owner the comment is removed,
    the other comments stay, and the comment counter of the content the
    comment was made on goes down by one. *)
Theorem deleteComment_only_owner (userId : string) (commentId : positive)
  (db : Db) :
  ((forall c, Comment_collection db !! commentId = Some c ->
      comment_userId c <> userId) ->
   deleteCommentService userId commentId db
   = (Throw "Comment not found or user not authorized to delete.", db))
  /\ (forall c,
        Comment_collection db !! commentId = Some c ->
        comment_userId c = userId ->
        exists db',
          deleteCommentService userId commentId db = (Ok tt, db')
          /\ Comment_collection db' = delete commentId (Comment_collection db)
          /\ Content_collection db'
             = alter (inc_comments (-1)) (comment_contentId c)
                 (Content_collection db)
          /\ Like_collection db' = Like_collection db).
Proof.
  unfold deleteCommentService, bind.
  destruct (Comment_findOwned_cases userId commentId db)
    as [(c & Hc & Hu & Hfind)|(Hnot & Hfind)]; rewrite Hfind; split.
  - intros Hno. exfalso. exact (Hno c Hc Hu).
  - intros c' Hc' _. rewrite Hc in Hc'. injection Hc' as <-.
    eexists. split; [reflexivity|]. cbn. repeat split; reflexivity.
  - intros _. reflexivity.
  - intros c Hc Hu. exfalso. exact (Hnot c Hc Hu).
Qed.

Lemma inc_comments_undo (c : Content) : inc_comments (-1) (inc_comments 1 c) = c.
Proof. destruct c. unfold inc_comments. cbn. f_equal. lia. Qed.

(** X9: a comment that its author deletes right after adding it leaves
    the comments, the likes and the users as they were before it was
    added, and the contents stored under the same identifiers and in
    agreement with what they were on every field of the model, the
    comment counter included. *)
Theorem addComment_then_delete_restores (userId : string) (contentId : positive)
  (text : string) (parentId : option positive) (db : Db) :
  exists id c db1 db2,
    addCommentService userId contentId text parentId db = (Ok (id, c), db1)
    /\ comment_text c = text
    /\ Comment_collection db1 !! id = Some c
    /\ deleteCommentService userId id db1 = (Ok tt, db2)
    /\ Comment_collection db2 = Comment_collection db
    /\ Like_collection db2 = Like_collection db
    /\ User_collection db2 = User_collection db
    /\ contents_agree (Content_collection db2) (Content_collection db).
Proof.
  destruct (addCommentService_run userId contentId text parentId db)
    as (id & Hnone & Hrun).
  eexists id, _, _, _. split; [exact Hrun|]. split; [reflexivity|].
  split; [cbn; apply lookup_insert_eq|].
  unfold deleteCommentService, bind, Comment_findOwned. cbn.
  rewrite lookup_insert_eq. cbn. rewrite String.eqb_refl.
  unfold Comment_findByIdAndDelete, Content_incComments. cbn.
  split; [reflexivity|]. cbn.
  split; [now apply delete_insert_id|].
  split; [reflexivity|]. split; [reflexivity|].
  apply contents_agree_eq. apply alter_undo. exact inc_comments_undo.
Qed.

Lemma commentsFor_insert (k : positive) (comments : gmap positive Comment)
  (id : positive) (c : Comment) :
  comments !! id = None ->
  commentsFor k (<[id := c]> comments)
  = commentsFor k comments + (if Pos.eqb (comment_contentId c) k then 1 else 0).
Proof. intros Hnone. unfold commentsFor. now rewrite countDocuments_insert. Qed.

Lemma commentsFor_delete (k : positive) (comments : gmap positive Comment)
  (id : positive) (c : Comment) :
  comments !! id = Some c ->
  commentsFor k comments
  = commentsFor k (delete id comments)
    + (if Pos.eqb (comment_contentId c) k then 1 else 0).
Proof. intros Hc. unfold commentsFor. now rewrite (countDocuments_delete _ _ id c). Qed.

(** X10: adding, editing and deleting comments keep the comment counters
    exact, whoever calls them and whether they succeed or throw. *)
Theorem comment_services_keep_counters (db : Db) :
  comments_counted db ->
  (forall userId contentId text parentId,
      comments_counted
        (snd (addCommentService userId contentId text parentId db)))
  /\ (forall userId commentId text,
        comments_counted (snd (updateCommentService userId commentId text db)))
  /\ (forall userId commentId,
        comments_counted (snd (deleteCommentService userId commentId db))).
Proof.
  intros Hinv. split; [|split].
  - intros userId contentId text parentId.
    destruct (addCommentService_run userId contentId text parentId db)
      as (id & Hnone & Hrun).
    rewrite Hrun. cbn [snd]. intros k c Hk. cbn in Hk |- *.
    rewrite commentsFor_insert by exact Hnone. cbn [comment_contentId].
    rewrite lookup_alter in Hk. destruct (decide (contentId = k)) as [->|Hne].
    + destruct (Content_collection db !! k) as [c0|] eqn:Hc0; [|discriminate].
      injection Hk as <-. cbn. rewrite (Hinv k c0 Hc0), Pos.eqb_refl. lia.
    + rewrite (Hinv k c Hk). apply Pos.eqb_neq in Hne. rewrite Hne. lia.
  - intros userId commentId text.
    unfold updateCommentService, bind.
    destruct (Comment_findOwned_cases userId commentId db)
      as [(c0 & Hc0 & Hu & Hfind)|(Hnot & Hfind)]; rewrite Hfind;
      [|exact Hinv].
    cbn [snd]. intros k c Hk. cbn in Hk |- *.
    rewrite (Hinv k c Hk). f_equal. unfold commentsFor. symmetry.
    now apply (countDocuments_replace _ _ commentId c0).
  - intros userId commentId.
    unfold deleteCommentService, bind.
    destruct (Comment_findOwned_cases userId commentId db)
      as [(c0 & Hc0 & Hu & Hfind)|(Hnot & Hfind)]; rewrite Hfind;
      [|exact Hinv].
    cbn [snd]. intros k c Hk. cbn in Hk |- *.
    rewrite lookup_alter in Hk.
    destruct (decide (comment_contentId c0 = k)) as [<-|Hne].
    + destruct (Content_collection db !! comment_contentId c0) as [c1|] eqn:Hc1;
        [|discriminate].
      injection Hk as <-. cbn. rewrite (Hinv _ c1 Hc1).
      rewrite (commentsFor_delete _ _ commentId c0 Hc0), Pos.eqb_refl. lia.
    + rewrite (Hinv k c Hk), (commentsFor_delete k _ commentId c0 Hc0).
      apply Pos.eqb_neq in Hne. rewrite Hne. lia.
Qed.

(** X11: the listing of the comments of a content leaves the store as it
    was and holds each stored comment of the content once, and no other;
    when the comment counters are exact its length is the counter of the
    content. *)
Theorem getComments_lists_the_comments (contentId : positive) (db : Db) :
  exists listing,
    getCommentsService contentId db = (Ok listing, db)
    /\ NoDup (map pc_id listing)
    /\ (forall pc,
          pc ∈ listing
          <-> exists c,
                Comment_collection db !! pc_id pc = Some c
                /\ comment_contentId c = contentId
                /\ pc = populateComment (User_collection db) (pc_id pc, c))
    /\ (comments_counted db ->
        forall c, Content_collection db !! contentId = Some c ->
                  Z.of_nat (length listing) = commentsCount c).
Proof.
  eexists. split; [reflexivity|].
  set (found := Mongo.find
                  (fun _ c => Pos.eqb (comment_contentId c) contentId)
                  (Comment_collection db)).
  split; [|split].
  - rewrite map_map. cbn. apply NoDup_find.
  - intros pc. rewrite list_elem_of_In, in_map_iff. split.
    + intros ([id c] & <- & Hin).
      apply list_elem_of_In, elem_of_find in Hin as [Hc Hm].
      apply Pos.eqb_eq in Hm. exists c. cbn. now split.
    + intros (c & Hc & Hm & Hpc). exists (pc_id pc, c). split; [now symmetry|].
      apply list_elem_of_In, elem_of_find. split; [exact Hc|].
      now apply Pos.eqb_eq.
  - intros Hinv c Hc. rewrite length_map. rewrite (Hinv contentId c Hc).
    reflexivity.
Qed.

End Comment_proofs.

(** ** Sorted queries *)

Section SortBy_proofs.
Context {A : Type} (precedes : A -> A -> bool).

Lemma insertBy_Permutation (e : A) (l : list A) :
  Mongo.insertBy precedes e l ≡ₚ e :: l.
Proof.
  induction l as [|x l IH]; cbn [Mongo.insertBy]; [reflexivity|].
  destruct (precedes x e); [|reflexivity].
  rewrite IH. apply perm_swap.
Qed.

Lemma sortBy_Permutation (l : list A) : Mongo.sortBy precedes l ≡ₚ l.
Proof.
  induction l as [|e l IH]; cbn [Mongo.sortBy]; [reflexivity|].
  now rewrite insertBy_Permutation, IH.
Qed.

Hypothesis precedes_asym : forall a b, precedes a b = true -> precedes b a = false.
Hypothesis precedes_neg_trans :
  forall a b c, precedes b a = false -> precedes c b = false -> precedes c a = false.

Lemma insertBy_sorted (e : A) (l : list A) :
  StronglySorted (fun a b => precedes b a = false) l ->
  StronglySorted (fun a b => precedes b a = false) (Mongo.insertBy precedes e l).
Proof.
  intros Hs. induction Hs as [|x l Hs IH Hx]; cbn [Mongo.insertBy].
  - repeat constructor.
  - destruct (precedes x e) eqn:Hxe.
    + constructor; [exact IH|].
      rewrite insertBy_Permutation. constructor; [auto|exact Hx].
    + constructor; [now constructor|].
      constructor; [exact Hxe|].
      apply List.Forall_forall. intros y Hy.
      apply (precedes_neg_trans e x y Hxe).
      exact (proj1 (List.Forall_forall _ _) Hx y Hy).
Qed.

Lemma sortBy_sorted (l : list A) :
  StronglySorted (fun a b => precedes b a = false) (Mongo.sortBy precedes l).
Proof.
  induction l as [|e l IH]; cbn [Mongo.sortBy]; [constructor|].
  now apply insertBy_sorted.
Qed.

End SortBy_proofs.

Lemma take_drop_sorted {A : Type} (R : A -> A -> Prop) (n : nat) (l : list A) :
  StronglySorted R l ->
  StronglySorted R (take n l)
  /\ forall a b, a ∈ take n l -> b ∈ drop n l -> R a b.
Proof.
  intros Hs. rewrite <- (take_drop n l) in Hs.
  apply StronglySorted_app in Hs as (Hcross & Htake & _). now split.
Qed.

(** ** Reading, updating and deleting contents *)

Lemma Db_ext (a b : Schema.Db) :
  Schema.Content_collection a = Schema.Content_collection b ->
  Schema.Like_collection a = Schema.Like_collection b ->
  Schema.Comment_collection a = Schema.Comment_collection b ->
  Schema.User_collection a = Schema.User_collection b ->
  Schema.analysis a = Schema.analysis b ->
  Schema.now a = Schema.now b ->
  a = b.
Proof. destruct a, b; cbn; intros; subst; reflexivity. Qed.

Section Crud_proofs.
Import Schema ContentCrud.

Lemma with_contents_alter_missing (f : Content -> Content) (id : positive) (db : Db) :
  Content_collection db !! id = None ->
  with_contents (alter f id) db = db.
Proof.
  intros Hnone. apply Db_ext; try reflexivity. cbn. now apply alter_id'.
Qed.

(** X12: fetching a content counts one view. When no content has the
    identifier the service throws and the store is left as it was;
    otherwise the document returned is the one stored afterwards, with
    its author populated: its view counter is one more than before, and
    its like counter, its comment counter and its other fields of the
    model are as before; every other content, the likes and the comments
    stay. *)
Theorem getContentById_counts_a_view (contentId : positive) (db : Db) :
  (Content_collection db !! contentId = None ->
   getContentByIdService contentId db = (Throw "Content not found", db))
  /\ (forall c,
        Content_collection db !! contentId = Some c ->
        exists r db',
          getContentByIdService contentId db = (Ok r, db')
          /\ pop_id r = contentId
          /\ Content_collection db' !! contentId = Some (pop_doc r)
          /\ viewsCount (pop_doc r) = (viewsCount c + 1)%Z
          /\ likesCount (pop_doc r) = likesCount c
          /\ commentsCount (pop_doc r) = commentsCount c
          /\ StoreProps.same_content_fields (pop_doc r) c
          /\ pop_author r = populateAuthor (User_collection db) (author c)
          /\ (forall k, k <> contentId ->
                Content_collection db' !! k = Content_collection db !! k)
          /\ Like_collection db' = Like_collection db
          /\ Comment_collection db' = Comment_collection db).
Proof.
  unfold getContentByIdService, bind, Content_findByIdAndUpdate, populateOne.
  split.
  - intros Hnone. rewrite Hnone. cbn.
    now rewrite with_contents_alter_missing.
  - intros c Hc. rewrite Hc. cbn.
    eexists; eexists. split; [reflexivity|]. cbn.
    split; [reflexivity|].
    split; [now rewrite lookup_alter_eq, Hc|].
    repeat (split; [reflexivity|]).
    split; [same_fields|].
    split; [reflexivity|].
    split; [|split; reflexivity].
    intros k Hk. now rewrite lookup_alter_ne by congruence.
Qed.

Lemma notAllowed_spec (c : Content) (user : RequestUser) :
  notAllowed c user = false
  <-> author c = user_id user \/ user_role user = "admin".
Proof.
  unfold notAllowed. rewrite andb_false_iff, !negb_false_iff, !String.eqb_eq.
  reflexivity.
Qed.

(** X13: a content is updated by its author or by an administrator only.
    With an identifier that names no content the service throws
    "Content not found"; for any other user it throws the authorization
    error; in both cases the store is left as it was. Otherwise the
    update is applied to that content alone and the new document is
    returned. *)
Theorem updateContent_author_or_admin (contentId : positive)
  (updateData : Content -> Content) (user : RequestUser) (db : Db) :
  (Content_collection db !! contentId = None ->
   updateContentService contentId updateData user db
   = (Throw "Content not found", db))
  /\ (forall c,
        Content_collection db !! contentId = Some c ->
        author c <> user_id user ->
        user_role user <> "admin" ->
        updateContentService contentId updateData user db
        = (Throw "Authorization failed: You are not the author or an admin.", db))
  /\ (forall c,
        Content_collection db !! contentId = Some c ->
        author c = user_id user \/ user_role user = "admin" ->
        exists db',
          updateContentService contentId updateData user db
          = (Ok (Some (updateData c)), db')
          /\ Content_collection db'
             = <[contentId := updateData c]> (Content_collection db)
          /\ Like_collection db' = Like_collection db
          /\ Comment_collection db' = Comment_collection db).
Proof.
  unfold updateContentService, bind, Content_findById. split; [|split].
  - intros Hnone. now rewrite Hnone.
  - intros c Hc Hauthor Hrole. rewrite Hc.
    destruct (notAllowed c user) eqn:Hna; [reflexivity|].
    apply notAllowed_spec in Hna as [?|?]; contradiction.
  - intros c Hc Hok. rewrite Hc.
    apply notAllowed_spec in Hok. rewrite Hok.
    unfold Content_findByIdAndUpdate. rewrite Hc. cbn.
    eexists. split; [reflexivity|]. cbn. split; [|split; reflexivity].
    apply map_eq. intros k. rewrite lookup_alter, lookup_insert.
    destruct (decide (contentId = k)) as [<-|]; [now rewrite Hc|reflexivity].
Qed.

(** X14: a content is deleted by its author or by an administrator only,
    with the same two errors as for an update and the store left as it
    was. Otherwise that content alone is removed; the likes and the
    comments made on it stay in their collections. *)
Theorem deleteContent_author_or_admin (contentId : positive)
  (user : RequestUser) (db : Db) :
  (Content_collection db !! contentId = None ->
   deleteContentService contentId user db = (Throw "Content not found", db))
  /\ (forall c,
        Content_collection db !! contentId = Some c ->
        author c <> user_id user ->
        user_role user <> "admin" ->
        deleteContentService contentId user db
        = (Throw "Authorization failed: You are not the author or an admin.", db))
  /\ (forall c,
        Content_collection db !! contentId = Some c ->
        author c = user_id user \/ user_role user = "admin" ->
        exists db',
          deleteContentService contentId user db = (Ok tt, db')
          /\ Content_collection db' = delete contentId (Content_collection db)
          /\ Like_collection db' = Like_collection db
          /\ Comment_collection db' = Comment_collection db
          /\ StoreProps.likesFor contentId (Like_collection db')
             = StoreProps.likesFor contentId (Like_collection db)
          /\ StoreProps.commentsFor contentId (Comment_collection db')
             = StoreProps.commentsFor contentId (Comment_collection db)).
Proof.
  unfold deleteContentService, bind, Content_findById. split; [|split].
  - intros Hnone. now rewrite Hnone.
  - intros c Hc Hauthor Hrole. rewrite Hc.
    destruct (notAllowed c user) eqn:Hna; [reflexivity|].
    apply notAllowed_spec in Hna as [?|?]; contradiction.
  - intros c Hc Hok. rewrite Hc.
    apply notAllowed_spec in Hok. rewrite Hok.
    eexists. split; [reflexivity|]. cbn. repeat split; reflexivity.
Qed.

Lemma anyIn_spec (field values : list string) :
  anyIn field values = true <-> exists x, x ∈ field /\ x ∈ values.
Proof.
  unfold anyIn. rewrite existsb_exists. split.
  - intros (x & Hx & Hinc). exists x. split; [now apply list_elem_of_In|].
    now apply includes_true.
  - intros (x & Hx & Hv). exists x. split; [now apply list_elem_of_In|].
    now apply includes_true.
Qed.

Lemma Status_eqb_eq (a b : Status) : Status_eqb a b = true <-> a = b.
Proof. destruct a, b; cbn; split; congruence. Qed.

(** X15: the contents related to a content are at most five, never the
    content itself, all published, and each shares its category, one of
    its tags or one of its automatic tags with it; the listing leaves the
    store as it was and throws when no content has the identifier. *)
Theorem getRelated_are_related (contentId : positive) (db : Db) :
  (Content_collection db !! contentId = None ->
   getRelatedContentService contentId db = (Throw "Content not found", db))
  /\ (forall current,
        Content_collection db !! contentId = Some current ->
        exists listing,
          getRelatedContentService contentId db = (Ok listing, db)
          /\ length listing <= 5
          /\ NoDup (map pop_id listing)
          /\ forall r, r ∈ listing ->
               pop_id r <> contentId
               /\ Content_collection db !! pop_id r = Some (pop_doc r)
               /\ status (pop_doc r) = published
               /\ (category (pop_doc r) = category current
                   \/ (exists t, t ∈ tags (pop_doc r) /\ t ∈ tags current)
                   \/ (exists t, t ∈ autoTags (pop_doc r)
                                 /\ t ∈ autoTags current))).
Proof.
  unfold getRelatedContentService, bind, Content_findById. split.
  - intros Hnone. now rewrite Hnone.
  - intros current Hcur. rewrite Hcur.
    eexists. split; [reflexivity|].
    set (found := Mongo.find (relatedFilter contentId current)
                    (Content_collection db)).
    split; [rewrite length_map, length_take; lia|]. split.
    + rewrite map_map. cbn. rewrite <- firstn_map.
      pose proof (NoDup_find (relatedFilter contentId current)
                    (Content_collection db)) as Hnd.
      fold found in Hnd. rewrite <- (take_drop 5 (map fst found)) in Hnd.
      now apply NoDup_app in Hnd.
    + intros r Hr.
      apply list_elem_of_In, in_map_iff in Hr as ([id c] & <- & Hin).
      apply list_elem_of_In, elem_of_take in Hin as (i & Hin & _).
      apply list_elem_of_lookup_2, elem_of_find in Hin as [Hc Hf].
      unfold relatedFilter in Hf.
      apply andb_true_iff in Hf as [Hf Hrel].
      apply andb_true_iff in Hf as [Hid Hst].
      apply negb_true_iff, Pos.eqb_neq in Hid.
      apply Status_eqb_eq in Hst. cbn.
      repeat (split; [assumption|]).
      apply orb_true_iff in Hrel as [Hrel|Hrel];
        [apply orb_true_iff in Hrel as [Hrel|Hrel]|].
      * left. now apply String.eqb_eq.
      * right. left. now apply anyIn_spec.
      * right. right. now apply anyIn_spec.
Qed.

End Crud_proofs.

(** ** Paginated listing *)

Lemma Math_ceil_div_pos (n : nat) (d : positive) :
  JS.Math_ceil_div n (Zpos d) = (- ((- Z.of_nat n) / Zpos d))%Z.
Proof.
  unfold JS.Math_ceil_div, Qceiling, Qfloor, Qdiv, Qmult, Qinv, inject_Z, Qopp.
  cbn. now rewrite Z.mul_1_r.
Qed.

Lemma Math_ceil_div_pos_bounds (n : nat) (d : positive) :
  (Zpos d * (JS.Math_ceil_div n (Zpos d) - 1) < Z.of_nat n
   <= Zpos d * JS.Math_ceil_div n (Zpos d))%Z.
Proof.
  rewrite Math_ceil_div_pos.
  pose proof (Z.div_mod (- Z.of_nat n) (Zpos d) ltac:(lia)) as Hdm.
  pose proof (Z.mod_pos_bound (- Z.of_nat n) (Zpos d) ltac:(lia)) as Hb.
  lia.
Qed.

Lemma elem_of_take_drop {A : Type} (n k : nat) (l : list A) (x : A) :
  x ∈ take n (drop k l) -> x ∈ l.
Proof.
  intros Hx. apply elem_of_take in Hx as (i & Hx & _).
  apply list_elem_of_lookup_2 in Hx.
  rewrite <- (take_drop k l). apply elem_of_app. now right.
Qed.

Lemma NoDup_take_drop {A : Type} (n k : nat) (l : list A) :
  NoDup l -> NoDup (take n (drop k l)).
Proof.
  intros Hnd. rewrite <- (take_drop k l) in Hnd.
  apply NoDup_app in Hnd as (_ & _ & Hnd).
  rewrite <- (take_drop n (drop k l)) in Hnd.
  now apply NoDup_app in Hnd.
Qed.

Lemma StronglySorted_take_drop {A : Type} (R : A -> A -> Prop) (n k : nat)
  (l : list A) :
  StronglySorted R l -> StronglySorted R (take n (drop k l)).
Proof.
  intros Hs. rewrite <- (take_drop k l) in Hs.
  apply StronglySorted_app in Hs as (_ & _ & Hs).
  rewrite <- (take_drop n (drop k l)) in Hs.
  now apply StronglySorted_app in Hs.
Qed.

Section Listing_proofs.
Context `{TextIndex}.
Import Schema ContentCrud.

Lemma newerFirst_asym (a b : positive * Content) :
  newerFirst a b = true -> newerFirst b a = false.
Proof. unfold newerFirst. rewrite N.ltb_lt, N.ltb_ge. lia. Qed.

Lemma newerFirst_neg_trans (a b c : positive * Content) :
  newerFirst b a = false -> newerFirst c b = false -> newerFirst c a = false.
Proof. unfold newerFirst. rewrite !N.ltb_ge. lia. Qed.

(** X16: a page of the listing. The store is left as it was; the total is
    the number of published contents that match the search; the number
    of pages is the least number of pages of [limit] items that hold the
    total; the page holds the items after the first [(page - 1) * limit]
    ones, at most [limit] of them, so a page within the number of pages
    is not empty and a page beyond it is; its items are distinct stored
    contents, published, matching the search when there is one, from the
    newest to the oldest. *)
Theorem getAllContent_page (queryOptions : QueryOptions) (db : Db) :
  let p := default 1%positive (page queryOptions) in
  let l := default 10%positive (limit queryOptions) in
  let s := default EmptyString (search queryOptions) in
  exists listing,
    getAllContentService queryOptions db = (Ok listing, db)
    /\ totalItems (paginationInfo listing)
       = Mongo.countDocuments (listingQuery s) (Content_collection db)
    /\ currentPage (paginationInfo listing) = p
    /\ (Zpos l * (totalPages (paginationInfo listing) - 1)
        < Z.of_nat (totalItems (paginationInfo listing))
        <= Zpos l * totalPages (paginationInfo listing))%Z
    /\ length (content listing)
       = min (Pos.to_nat l)
           (totalItems (paginationInfo listing)
            - (Pos.to_nat p - 1) * Pos.to_nat l)
    /\ ((Zpos p <= totalPages (paginationInfo listing))%Z ->
        content listing <> [])
    /\ ((totalPages (paginationInfo listing) < Zpos p)%Z ->
        content listing = [])
    /\ NoDup (map pop_id (content listing))
    /\ (forall r, r ∈ content listing ->
          Content_collection db !! pop_id r = Some (pop_doc r)
          /\ status (pop_doc r) = published
          /\ (s <> EmptyString -> textMatches s (pop_doc r) = true))
    /\ StronglySorted
         (fun a b => (createdAt (pop_doc b) <= createdAt (pop_doc a))%N)
         (content listing).
Proof.
  cbv zeta. unfold getAllContentService.
  set (p := default 1%positive (page queryOptions)).
  set (l := default 10%positive (limit queryOptions)).
  set (s := default EmptyString (search queryOptions)).
  set (found := Mongo.find (listingQuery s) (Content_collection db)).
  set (sorted := Mongo.sortBy newerFirst found).
  eexists. split; [reflexivity|]. cbn [paginationInfo content totalItems
    totalPages currentPage].
  unfold Mongo.countDocuments. fold found.
  assert (Hperm : sorted ≡ₚ found) by apply sortBy_Permutation.
  assert (Hlen : length (take (Pos.to_nat l)
                           (drop ((Pos.to_nat p - 1) * Pos.to_nat l) sorted))
                 = min (Pos.to_nat l)
                     (length found - (Pos.to_nat p - 1) * Pos.to_nat l)).
  { rewrite length_take, length_drop. now rewrite (Permutation_length Hperm). }
  pose proof (Math_ceil_div_pos_bounds (length found) l) as Hpages.
  split; [reflexivity|]. split; [reflexivity|]. split; [exact Hpages|].
  split; [now rewrite length_map|].
  split; [|split].
  - intros Hle Hnil. apply (f_equal length) in Hnil.
    rewrite length_map, Hlen in Hnil. cbn in Hnil. nia.
  - intros Hgt. apply length_zero_iff_nil. rewrite length_map, Hlen. nia.
  - split; [|split].
    + rewrite map_map. cbn. rewrite <- firstn_map, <- skipn_map.
      apply NoDup_take_drop. rewrite Hperm. apply NoDup_find.
    + intros r Hr.
      apply list_elem_of_In, in_map_iff in Hr as ([id c] & <- & Hin).
      apply list_elem_of_In, elem_of_take_drop in Hin.
      rewrite Hperm in Hin. apply elem_of_find in Hin as [Hc Hq].
      unfold listingQuery in Hq. apply andb_true_iff in Hq as [Hst Hm].
      apply Status_eqb_eq in Hst. cbn.
      split; [exact Hc|]. split; [exact Hst|].
      intros Hs. apply String.eqb_neq in Hs. now rewrite Hs in Hm.
    + apply (StronglySorted_map_on (fun _ => True)
               (fun a b => newerFirst b a = false)).
      * apply List.Forall_forall. auto.
      * intros a b _ _ Hab. unfold newerFirst in Hab. cbn.
        now apply N.ltb_ge in Hab.
      * apply StronglySorted_take_drop.
        apply sortBy_sorted; [exact newerFirst_asym|exact newerFirst_neg_trans].
Qed.

End Listing_proofs.

(** ** Creation of a content *)

Section Creation_proofs.
Context `{Tokenizer} `{Extractor} `{Uploader}.
Variable validationMessage : ContentCrud.ContentData -> string.
Import Schema ContentCrud StoreProps.




(** X18: when the upload of the file yields no result or no secure URL
    the creation throws before anything else is done: no analysis is
    run and the store is left as it was. *)
Theorem createContent_upload_failure (data : ContentData) (authorId : string)
  (f : UploadedFile) (db : Db) :
  (cloudinaryUpload (file_path f)
     ("content_" ++ authorId ++ "_" ++ pretty (now db))%string
     "content_images" = None
   \/ cloudinaryUpload (file_path f)
        ("content_" ++ authorId ++ "_" ++ pretty (now db))%string
        "content_images" = Some EmptyString) ->
  createContentService validationMessage data authorId (Some f) db
  = (Throw "Cloudinary upload failed during content creation.", db).
Proof.
  intros Hup. unfold createContentService, bind, uploadFeaturedImage.
  destruct Hup as [-> | ->]; reflexivity.
Qed.


End Creation_proofs.

(** ** Analytics *)

Section Analytics_proofs.
Import Schema AnalyticsService StoreProps.

Lemma moreTrending_asym (a b : positive * Content) :
  moreTrending a b = true -> moreTrending b a = false.
Proof.
  unfold moreTrending.
  rewrite orb_true_iff, orb_false_iff, andb_true_iff, andb_false_iff.
  rewrite !Z.ltb_lt, !Z.ltb_ge, Z.eqb_eq, Z.eqb_neq. lia.
Qed.

Lemma moreTrending_neg_trans (a b c : positive * Content) :
  moreTrending b a = false -> moreTrending c b = false ->
  moreTrending c a = false.
Proof.
  unfold moreTrending.
  rewrite !orb_false_iff, !andb_false_iff.
  rewrite !Z.ltb_ge, !Z.eqb_neq. lia.
Qed.

Lemma moreTrending_not_behind (a b : positive * Content) :
  moreTrending b a = false
  <-> not_behind (viewsCount (snd a)) (likesCount (snd a))
        (viewsCount (snd b)) (likesCount (snd b)).
Proof.
  unfold moreTrending, not_behind.
  rewrite orb_false_iff, andb_false_iff.
  rewrite !Z.ltb_ge, Z.eqb_neq. lia.
Qed.

(** X20: the trending listing leaves the store as it was and holds the
    five published contents that are ahead in the order of views, then
    likes (all of them when they are fewer): its entries are distinct
    published contents with their counters, each entry is not behind the
    entries after it, and no published content left out is ahead of an
    entry. *)
Theorem getTrending_top_five (db : Db) :
  exists listing,
    getTrendingService db = (Ok listing, db)
    /\ length listing
       = min 5 (Mongo.countDocuments
                  (fun _ c => Status_eqb (status c) published)
                  (Content_collection db))
    /\ NoDup (map tr_id listing)
    /\ (forall t, t ∈ listing ->
          exists c,
            Content_collection db !! tr_id t = Some c
            /\ status c = published
            /\ t = selectTrending (User_collection db) (tr_id t, c))
    /\ StronglySorted
         (fun a b => not_behind (tr_viewsCount a) (tr_likesCount a)
                       (tr_viewsCount b) (tr_likesCount b))
         listing
    /\ (forall id c t,
          Content_collection db !! id = Some c ->
          status c = published ->
          id ∉ map tr_id listing ->
          t ∈ listing ->
          not_behind (tr_viewsCount t) (tr_likesCount t)
            (viewsCount c) (likesCount c)).
Proof.
  unfold getTrendingService.
  set (found := Mongo.find (fun _ c => Status_eqb (status c) published)
                  (Content_collection db)).
  set (sorted := Mongo.sortBy moreTrending found).
  eexists. split; [reflexivity|].
  assert (Hperm : sorted ≡ₚ found) by apply sortBy_Permutation.
  assert (Hsorted : StronglySorted (fun a b => moreTrending b a = false) sorted).
  { apply sortBy_sorted; [exact moreTrending_asym|exact moreTrending_neg_trans]. }
  destruct (take_drop_sorted _ 5 sorted Hsorted) as [Htake Hcross].
  split; [|split; [|split; [|split]]].
  - rewrite length_map, length_take. unfold Mongo.countDocuments. fold found.
    now rewrite (Permutation_length Hperm).
  - rewrite map_map. cbn. rewrite <- firstn_map.
    assert (Hnd : NoDup (map fst sorted)) by (rewrite Hperm; apply NoDup_find).
    rewrite <- (take_drop 5 (map fst sorted)) in Hnd.
    now apply NoDup_app in Hnd.
  - intros t Ht.
    apply list_elem_of_In, in_map_iff in Ht as ([id c] & <- & Hin).
    apply list_elem_of_In, elem_of_take in Hin as (i & Hin & _).
    apply list_elem_of_lookup_2 in Hin. rewrite Hperm in Hin.
    apply elem_of_find in Hin as [Hc Hst]. apply Status_eqb_eq in Hst.
    exists c. cbn. now split.
  - apply (StronglySorted_map_on (fun _ => True)
             (fun a b => moreTrending b a = false)); [|auto|exact Htake].
    + apply List.Forall_forall. auto.
    + intros a b _ _ Hab. cbn. now apply moreTrending_not_behind.
  - intros id c t Hc Hst Hout Ht.
    apply list_elem_of_In, in_map_iff in Ht as (p & <- & Hp).
    apply list_elem_of_In in Hp.
    assert (Hin : (id, c) ∈ sorted).
    { rewrite Hperm. apply elem_of_find. split; [exact Hc|].
      now apply Status_eqb_eq. }
    rewrite <- (take_drop 5 sorted) in Hin.
    apply elem_of_app in Hin as [Hin|Hin].
    + exfalso. apply Hout.
      apply list_elem_of_In, in_map_iff.
      exists (selectTrending (User_collection db) (id, c)). split; [reflexivity|].
      apply in_map_iff. exists (id, c). split; [reflexivity|].
      now apply list_elem_of_In.
    + cbn. apply (moreTrending_not_behind p (id, c)). now apply Hcross.
Qed.

(** X21: the analytics of a content follow the interactions with it:
    after a fetch its views are one more, after a like by a user who had
    not liked it its likes are one more, after a comment its comments
    are one more, and the other counters are as before. For an
    identifier that names no content the analytics throw and leave the
    store as it was. *)
Theorem analytics_follow_interactions (contentId : positive) (db : Db) :
  (Content_collection db !! contentId = None ->
   getContentAnalyticsService contentId db = (Throw "Content not found", db))
  /\ (forall c,
        Content_collection db !! contentId = Some c ->
        let counters views likes comments :=
          Ok {| an_id := contentId; an_title := title c;
                an_viewsCount := views; an_likesCount := likes;
                an_commentsCount := comments |} in
        getContentAnalyticsService contentId db
        = (counters (viewsCount c) (likesCount c) (commentsCount c), db)
        /\ fst (getContentAnalyticsService contentId
                  (snd (ContentCrud.getContentByIdService contentId db)))
           = counters (viewsCount c + 1)%Z (likesCount c) (commentsCount c)
        /\ (forall userId,
              ~ has_liked db userId contentId ->
              fst (getContentAnalyticsService contentId
                     (snd (LikesAndComments.toggleLikeService userId contentId db)))
              = counters (viewsCount c) (likesCount c + 1)%Z (commentsCount c))
        /\ (forall userId text parentId,
              fst (getContentAnalyticsService contentId
                     (snd (LikesAndComments.addCommentService
                             userId contentId text parentId db)))
              = counters (viewsCount c) (likesCount c) (commentsCount c + 1)%Z)).
Proof.
  unfold getContentAnalyticsService. split.
  - intros Hnone. now rewrite Hnone.
  - intros c Hc. cbv zeta. split; [now rewrite Hc|]. split; [|split].
    + unfold ContentCrud.getContentByIdService, bind,
        ContentCrud.Content_findByIdAndUpdate, ContentCrud.populateOne.
      rewrite Hc. cbn. rewrite lookup_alter_eq, Hc. reflexivity.
    + intros userId Hnot.
      destruct (toggleLikeService_cases userId contentId db)
        as [(id & l & Hl & Hu & Hcid & _)|(_ & id & Hnone & Hrun)].
      { exfalso. apply Hnot. now exists id, l. }
      rewrite Hrun. cbn. rewrite lookup_alter_eq, Hc. reflexivity.
    + intros userId text parentId.
      destruct (addCommentService_run userId contentId text parentId db)
        as (id & Hnone & Hrun).
      rewrite Hrun. cbn. rewrite lookup_alter_eq, Hc. reflexivity.
Qed.

End Analytics_proofs.

(** ** More on the analysis engine *)

Lemma split_go_not_nil (in_sep : bool) (cur s : string) :
  1 <= length (JS.split_go in_sep cur s).
Proof.
  revert in_sep cur. induction s as [|c r IH]; intros in_sep cur; cbn; [lia|].
  destruct (JS.is_ws c); [destruct in_sep; [apply IH|cbn; lia]|apply IH].
Qed.

Lemma toLowerCase_idempotent (s : string) :
  JS.toLowerCase (JS.toLowerCase s) = JS.toLowerCase s.
Proof.
  induction s as [|c r IH]; cbn; [reflexivity|]. rewrite IH. f_equal.
  unfold JS.lower_ascii.
  destruct ((65 <=? nat_of_ascii c)%nat && (nat_of_ascii c <=? 90)%nat) eqn:Hup;
    [|now rewrite Hup].
  apply andb_true_iff in Hup as [Hlo Hhi].
  apply Nat.leb_le in Hlo, Hhi.
  rewrite nat_ascii_embedding by lia.
  destruct (Nat.leb_spec (nat_of_ascii c + 32) 90) as [Hbad|_]; [lia|].
  now rewrite andb_false_r.
Qed.

Section Engine_proofs.
Context `{Tokenizer} `{Extractor}.
Import ContentService Props.

(** X22: an article always counts for at least one word and one minute:
    when the extractor yields an article, even one whose text is empty
    or blank, the word count and the reading time of the analysis are at
    least 1. *)
Theorem article_counts_at_least_one_word (textBody text : string) (w : World) :
  readability_parse ("<body>" ++ textBody ++ "</body>")%string = Some text ->
  exists r w',
    performContentAnalysis textBody w = (Ok r, w')
    /\ 1 <= wordCount r
    /\ (1 <= readingTime r)%Z.
Proof.
  intros Harticle.
  destruct (performContentAnalysis_run textBody w)
    as (r & w' & Hrun & Hwc & Hrt & _).
  exists r, w'. split; [exact Hrun|]. rewrite Harticle in Hwc.
  assert (Hone : 1 <= wordCount r).
  { rewrite Hwc. apply split_go_not_nil. }
  split; [exact Hone|]. rewrite Hrt.
  pose proof (Math_ceil_div_200_bounds (wordCount r)). lia.
Qed.


(** X24: the classifier does not tell upper case from lower case: the
    suggestion is the same when the text is replaced by its lower-case
    form and every keyword by its lower-case form. *)
Theorem classifier_ignores_case (textContent : string) (categories : list Category)
  (w : World) :
  fst (suggestCategory (JS.toLowerCase textContent)
         (map StoreProps.lowerKeywords categories) w)
  = fst (suggestCategory textContent categories w).
Proof.
  unfold suggestCategory. rewrite length_map, toLowerCase_idempotent.
  destruct (0 <? length categories)%nat; [|reflexivity].
  unfold bind, emit, ret. cbn [fst]. f_equal. f_equal.
  generalize (0, Uncategorized).
  induction categories as [|c cats IH]; intros best; cbn [map fold_left];
    [reflexivity|].
  rewrite IH. f_equal.
  destruct best as [m s]. rewrite !considerCategory_score. cbn [name StoreProps.lowerKeywords].
  assert (Hscore : score (tokenize (JS.toLowerCase textContent)) (StoreProps.lowerKeywords c)
                   = score (tokenize (JS.toLowerCase textContent)) c).
  { unfold score, StoreProps.lowerKeywords. cbn [keywords].
    induction (keywords c) as [|k kws IHk]; cbn; [reflexivity|].
    rewrite toLowerCase_idempotent.
    destruct (bool_decide _); cbn; now rewrite IHk. }
  now rewrite Hscore.
Qed.

End Engine_proofs.

(** ** The services on the sample store *)

Section Sample_facts.
Import Schema StoreProps.

Lemma helloDb_likes_counted : likes_counted helloDb.
Proof.
  intros id c Hc. cbn in Hc.
  apply lookup_singleton_Some in Hc as [<- <-]. reflexivity.
Qed.

Lemma helloDb_comments_counted : comments_counted helloDb.
Proof.
  intros id c Hc. cbn in Hc.
  apply lookup_singleton_Some in Hc as [<- <-]. reflexivity.
Qed.

Lemma helloDb_likes_unique : likes_unique helloDb.
Proof.
  intros i j li lj Hi Hj _ _. cbn in Hi, Hj.
  apply lookup_singleton_Some in Hi as [<- _].
  now apply lookup_singleton_Some in Hj as [<- _].
Qed.

Lemma bob_has_not_liked : ~ has_liked helloDb "bob" 1.
Proof.
  intros (id & l & Hl & Hu & _). cbn in Hl.
  apply lookup_singleton_Some in Hl as [_ <-]. discriminate.
Qed.

Lemma bob_does_not_own (c : Comment) :
  Comment_collection helloDb !! 1%positive = Some c -> comment_userId c <> "bob".
Proof.
  cbn. intros Hc. apply lookup_singleton_Some in Hc as [_ <-]. discriminate.
Qed.

End Sample_facts.

(** Bob likes the sample content. *)
Lemma toggleLike_keeps_counters_witness :
  StoreProps.likes_counted helloDb
  /\ StoreProps.likes_counted
       (snd (LikesAndComments.toggleLikeService "bob" 1 helloDb)).
Proof.
  split; [exact helloDb_likes_counted|].
  apply (toggleLike_keeps_counters "bob" 1 helloDb).
  exact helloDb_likes_counted.
Defined.

Lemma toggleLike_twice_restores_witness :
  ~ StoreProps.has_liked helloDb "bob" 1
  /\ exists db1 db2,
      LikesAndComments.toggleLikeService "bob" 1 helloDb
      = (Ok {| LikesAndComments.liked := true |}, db1)
      /\ LikesAndComments.toggleLikeService "bob" 1 db1
         = (Ok {| LikesAndComments.liked := false |}, db2)
      /\ Schema.Like_collection db2 = Schema.Like_collection helloDb.
Proof.
  split; [exact bob_has_not_liked|].
  destruct (toggleLike_twice_restores "bob" 1 helloDb bob_has_not_liked)
    as (db1 & db2 & Hone & Htwo & Hlikes & _).
  now exists db1, db2.
Defined.

Lemma toggleLike_status_is_final_witness :
  StoreProps.likes_unique helloDb
  /\ exists r db',
      LikesAndComments.toggleLikeService "alice" 1 helloDb = (Ok r, db')
      /\ StoreProps.likes_unique db'
      /\ (LikesAndComments.liked r = true
          <-> StoreProps.has_liked db' "alice" 1).
Proof.
  split; [exact helloDb_likes_unique|].
  apply (toggleLike_status_is_final "alice" 1 helloDb).
  exact helloDb_likes_unique.
Defined.

(** Bob likes an identifier that names no content, and then the sample
    content. *)
Lemma toggleLike_frame_witness :
  Schema.Content_collection helloDb !! 2%positive = None
  /\ (exists r db',
        LikesAndComments.toggleLikeService "bob" 2 helloDb = (Ok r, db')
        /\ Schema.Content_collection db' = Schema.Content_collection helloDb)
  /\ exists r db' c',
      LikesAndComments.toggleLikeService "bob" 1 helloDb = (Ok r, db')
      /\ Schema.Content_collection db' !! 1%positive = Some c'
      /\ Schema.viewsCount c' = 3%Z.
Proof.
  split; [reflexivity|]. split.
  - destruct (toggleLike_frame "bob" 2 helloDb)
      as (r & db' & Hrun & _ & _ & _ & _ & Hmissing).
    exists r, db'. split; [exact Hrun|].
    apply Hmissing. reflexivity.
  - destruct (toggleLike_frame "bob" 1 helloDb)
      as (r & db' & Hrun & _ & _ & _ & Hfound & _).
    destruct (Hfound helloContent eq_refl) as (c' & Hc' & _ & Hviews & _).
    now exists r, db', c'.
Defined.

Lemma toggleFollow_twice_restores_witness :
  "alice" <> "bob"
  /\ ~ StoreProps.is_following ∅ "alice" "bob"
  /\ exists db1,
      InteractionsService.toggleFollowService "alice" "bob" ∅
      = (Ok {| InteractionsService.following := true |}, db1)
      /\ InteractionsService.toggleFollowService "alice" "bob" db1
         = (Ok {| InteractionsService.following := false |}, ∅).
Proof.
  assert (Hnot : ~ StoreProps.is_following ∅ "alice" "bob").
  { intros (id & d & Hd & _). rewrite lookup_empty in Hd. discriminate. }
  split; [discriminate|]. split; [exact Hnot|].
  apply (toggleFollow_twice_restores "alice" "bob" ∅); [discriminate|exact Hnot].
Defined.

Lemma toggleFollow_status_is_final_witness :
  "alice" <> "bob"
  /\ StoreProps.follows_unique {[ 1%positive := alice_bob ]}
  /\ exists r db',
      InteractionsService.toggleFollowService "alice" "bob"
        {[ 1%positive := alice_bob ]} = (Ok r, db')
      /\ StoreProps.follows_unique db'
      /\ (InteractionsService.following r = true
          <-> StoreProps.is_following db' "alice" "bob").
Proof.
  assert (Huniq : StoreProps.follows_unique {[ 1%positive := alice_bob ]}).
  { intros i j di dj Hi Hj _ _.
    apply lookup_singleton_Some in Hi as [<- _].
    now apply lookup_singleton_Some in Hj as [<- _]. }
  split; [discriminate|]. split; [exact Huniq|].
  apply (toggleFollow_status_is_final "alice" "bob"); [discriminate|exact Huniq].
Defined.

(** Bob cannot edit the comment of alice; alice can. *)
Lemma updateComment_only_owner_witness :
  LikesAndComments.updateCommentService "bob" 1 "edited" helloDb
  = (Throw "Comment not found or user not authorized to edit.", helloDb)
  /\ exists db',
      LikesAndComments.updateCommentService "alice" 1 "edited" helloDb
      = (Ok (1%positive, Schema.set_text "edited" aliceOnHello), db').
Proof.
  destruct (updateComment_only_owner "bob" 1 "edited" helloDb) as [Hbob _].
  destruct (updateComment_only_owner "alice" 1 "edited" helloDb) as [_ Halice].
  split; [apply Hbob; exact bob_does_not_own|].
  destruct (Halice aliceOnHello) as (db' & Hrun & _);
    [reflexivity|reflexivity|].
  now exists db'.
Defined.

(** Bob cannot delete the comment of alice; alice can. *)
Lemma deleteComment_only_owner_witness :
  LikesAndComments.deleteCommentService "bob" 1 helloDb
  = (Throw "Comment not found or user not authorized to delete.", helloDb)
  /\ exists db',
      LikesAndComments.deleteCommentService "alice" 1 helloDb = (Ok tt, db')
      /\ Schema.Comment_collection db' = delete 1%positive {[ 1%positive := aliceOnHello ]}.
Proof.
  destruct (deleteComment_only_owner "bob" 1 helloDb) as [Hbob _].
  destruct (deleteComment_only_owner "alice" 1 helloDb) as [_ Halice].
  split; [apply Hbob; exact bob_does_not_own|].
  destruct (Halice aliceOnHello) as (db' & Hrun & Hcomments & _);
    [reflexivity|reflexivity|].
  now exists db'.
Defined.

Lemma comment_services_keep_counters_witness :
  StoreProps.comments_counted helloDb
  /\ StoreProps.comments_counted
       (snd (LikesAndComments.addCommentService "bob" 1 "second" None helloDb))
  /\ StoreProps.comments_counted
       (snd (LikesAndComments.deleteCommentService "alice" 1 helloDb)).
Proof.
  split; [exact helloDb_comments_counted|].
  destruct (comment_services_keep_counters helloDb helloDb_comments_counted)
    as (Hadd & _ & Hdel).
  split; [apply Hadd|apply Hdel].
Defined.

Lemma getComments_lists_the_comments_witness :
  exists listing,
    LikesAndComments.getCommentsService 1 helloDb = (Ok listing, helloDb)
    /\ Z.of_nat (length listing) = 1%Z.
Proof.
  destruct (getComments_lists_the_comments 1 helloDb)
    as (listing & Hrun & _ & _ & Hlen).
  exists listing. split; [exact Hrun|].
  apply (Hlen helloDb_comments_counted helloContent). reflexivity.
Defined.

(** Identifier 2 names no content of the sample store; 1 does. *)
Lemma getContentById_counts_a_view_witness :
  ContentCrud.getContentByIdService 2 helloDb
  = (Throw "Content not found", helloDb)
  /\ exists r db',
      ContentCrud.getContentByIdService 1 helloDb = (Ok r, db')
      /\ Schema.viewsCount (ContentCrud.pop_doc r) = 4%Z.
Proof.
  destruct (getContentById_counts_a_view 2 helloDb) as [Hmissing _].
  destruct (getContentById_counts_a_view 1 helloDb) as [_ Hfound].
  split; [apply Hmissing; reflexivity|].
  destruct (Hfound helloContent) as (r & db' & Hrun & _ & _ & Hviews & _);
    [reflexivity|].
  now exists r, db'.
Defined.

(** Bob cannot update the content of alice; alice can. *)
Lemma updateContent_author_or_admin_witness :
  ContentCrud.updateContentService 2 retitle alice helloDb
  = (Throw "Content not found", helloDb)
  /\ ContentCrud.updateContentService 1 retitle bob helloDb
     = (Throw "Authorization failed: You are not the author or an admin.",
        helloDb)
  /\ exists db',
      ContentCrud.updateContentService 1 retitle alice helloDb
      = (Ok (Some (retitle helloContent)), db').
Proof.
  destruct (updateContent_author_or_admin 2 retitle alice helloDb)
    as (Hmissing & _ & _).
  destruct (updateContent_author_or_admin 1 retitle bob helloDb)
    as (_ & Hbob & _).
  destruct (updateContent_author_or_admin 1 retitle alice helloDb)
    as (_ & _ & Halice).
  split; [apply Hmissing; reflexivity|].
  split; [apply (Hbob helloContent); [reflexivity|discriminate|discriminate]|].
  destruct (Halice helloContent) as (db' & Hrun & _);
    [reflexivity|left; reflexivity|].
  now exists db'.
Defined.

(** Bob cannot delete the content of alice; alice can. *)
Lemma deleteContent_author_or_admin_witness :
  ContentCrud.deleteContentService 2 alice helloDb
  = (Throw "Content not found", helloDb)
  /\ ContentCrud.deleteContentService 1 bob helloDb
     = (Throw "Authorization failed: You are not the author or an admin.",
        helloDb)
  /\ exists db',
      ContentCrud.deleteContentService 1 alice helloDb = (Ok tt, db')
      /\ StoreProps.likesFor 1 (Schema.Like_collection db') = 1.
Proof.
  destruct (deleteContent_author_or_admin 2 alice helloDb) as (Hmissing & _ & _).
  destruct (deleteContent_author_or_admin 1 bob helloDb) as (_ & Hbob & _).
  destruct (deleteContent_author_or_admin 1 alice helloDb) as (_ & _ & Halice).
  split; [apply Hmissing; reflexivity|].
  split; [apply (Hbob helloContent); [reflexivity|discriminate|discriminate]|].
  destruct (Halice helloContent) as (db' & Hrun & _ & _ & _ & Hlikes & _);
    [reflexivity|left; reflexivity|].
  exists db'. split; [exact Hrun|]. rewrite Hlikes. reflexivity.
Defined.

(** The contents related to the one with 1 view among the six. *)
Lemma getRelated_are_related_witness :
  ContentCrud.getRelatedContentService 7 sixDb
  = (Throw "Content not found", sixDb)
  /\ exists listing,
      ContentCrud.getRelatedContentService 1 sixDb = (Ok listing, sixDb)
      /\ length listing <= 5.
Proof.
  destruct (getRelated_are_related 7 sixDb) as [Hmissing _].
  destruct (getRelated_are_related 1 sixDb) as [_ Hfound].
  split; [apply Hmissing; reflexivity|].
  destruct (Hfound (viewed 1)) as (listing & Hrun & Hlen & _); [reflexivity|].
  now exists listing.
Defined.

(** The first page of the sample store is within the number of pages. *)
Lemma getAllContent_page_witness :
  exists listing,
    ContentCrud.getAllContentService firstPage helloDb = (Ok listing, helloDb)
    /\ ContentCrud.content listing <> [].
Proof.
  destruct (getAllContent_page firstPage helloDb)
    as (listing & Hrun & Htotal & _ & Hpages & _ & Hwithin & _).
  exists listing. split; [exact Hrun|]. apply Hwithin.
  assert (Hone : ContentCrud.totalItems (ContentCrud.paginationInfo listing) = 1)
    by (rewrite Htotal; reflexivity).
  rewrite Hone in Hpages. cbn [default ContentCrud.page ContentCrud.limit firstPage
    from_option id] in *. lia.
Defined.


(** A file with the empty path is not uploaded. *)
Lemma createContent_upload_failure_witness :
  cloudinaryUpload "" ("content_" ++ "alice" ++ "_" ++ pretty (Schema.now helloDb))
    "content_images" = None
  /\ ContentCrud.createContentService sampleValidationMessage foxData "alice"
       (Some {| ContentCrud.file_path := "" |}) helloDb
     = (Throw "Cloudinary upload failed during content creation.", helloDb).
Proof.
  split; [reflexivity|].
  apply (createContent_upload_failure sampleValidationMessage foxData "alice"
           {| ContentCrud.file_path := "" |} helloDb).
  left. reflexivity.
Defined.


(** Among the six, the content with 1 view is left out of the trending
    listing and is ahead of none of its entries. *)
Lemma getTrending_top_five_witness :
  exists listing,
    AnalyticsService.getTrendingService sixDb = (Ok listing, sixDb)
    /\ length listing = 5
    /\ forall t, t ∈ listing ->
         StoreProps.not_behind (AnalyticsService.tr_viewsCount t)
           (AnalyticsService.tr_likesCount t) 1 0.
Proof.
  destruct (getTrending_top_five sixDb)
    as (listing & Hrun & Hlen & _ & _ & _ & Hout).
  exists listing. split; [exact Hrun|].
  assert (Hconcrete :
            AnalyticsService.getTrendingService sixDb
            = (Ok (map (AnalyticsService.selectTrending
                          (Schema.User_collection sixDb))
                     [(6%positive, viewed 6); (5%positive, viewed 5);
                      (4%positive, viewed 4); (3%positive, viewed 3);
                      (2%positive, viewed 2)]), sixDb))
    by (vm_compute; reflexivity).
  rewrite Hconcrete in Hrun. injection Hrun as <-.
  split; [reflexivity|].
  intros t Ht. apply (Hout 1%positive (viewed 1) t); [reflexivity|reflexivity| |exact Ht].
  intros Hin. apply list_elem_of_In in Hin. cbn in Hin.
  intuition discriminate.
Defined.

(** The analytics of the sample content after one more like. *)
Lemma analytics_follow_interactions_witness :
  AnalyticsService.getContentAnalyticsService 2 helloDb
  = (Throw "Content not found", helloDb)
  /\ fst (AnalyticsService.getContentAnalyticsService 1
            (snd (LikesAndComments.toggleLikeService "bob" 1 helloDb)))
     = Ok {| AnalyticsService.an_id := 1;
             AnalyticsService.an_title := "Hello";
             AnalyticsService.an_viewsCount := 3;
             AnalyticsService.an_likesCount := 2;
             AnalyticsService.an_commentsCount := 1 |}.
Proof.
  destruct (analytics_follow_interactions 2 helloDb) as [Hmissing _].
  destruct (analytics_follow_interactions 1 helloDb) as [_ Hfound].
  split; [apply Hmissing; reflexivity|].
  destruct (Hfound helloContent) as (_ & _ & Hlike & _); [reflexivity|].
  apply (Hlike "bob"). exact bob_has_not_liked.
Defined.

(** The sample extractor finds an article in the body "a". *)
Lemma article_counts_at_least_one_word_witness :
  readability_parse "<body>a</body>" = Some "a"
  /\ exists r w',
      ContentService.performContentAnalysis "a" (emptyWorld taxonomy) = (Ok r, w')
      /\ 1 <= wordCount r
      /\ (1 <= readingTime r)%Z.
Proof.
  split; [reflexivity|].
  apply (article_counts_at_least_one_word "a" "a" (emptyWorld taxonomy)).
  reflexivity.
Defined.


(** ** Examples on the sample store *)

Example create_fox_content :
  fst (ContentCrud.createContentService sampleValidationMessage foxData
         "alice" None helloDb)
  = Ok (2%positive,
        {| Schema.title := "Foxes"; Schema.body := foxText;
           Schema.author := "alice"; Schema.featuredImage := None;
           Schema.category := "Animals"; Schema.tags := [];
           Schema.autoTags := ["The"; "fox"; "quick"; "brown"; "jumps"];
           Schema.optimization_wordCount := 13;
           Schema.optimization_readingTime := 1;
           Schema.metadata := None;
           Schema.viewsCount := 0; Schema.likesCount := 0;
           Schema.commentsCount := 0;
           Schema.status := Schema.published; Schema.createdAt := 1000 |}).
Proof. vm_compute. reflexivity. Qed.

Example create_with_file :
  Schema.featuredImage
    <$> (snd <$> match fst (ContentCrud.createContentService
                              sampleValidationMessage foxData "alice"
                              (Some {| ContentCrud.file_path := "/tmp/fox.png" |})
                              helloDb) with
                 | Ok p => Some p
                 | Throw _ => None
                 end)
  = Some (Some "https://cdn.example/content_images/content_alice_1000").
Proof. vm_compute. reflexivity. Qed.

Example second_page_of_six :
  map ContentCrud.pop_id
    (match fst (ContentCrud.getAllContentService
                  {| ContentCrud.page := Some 2%positive;
                     ContentCrud.limit := Some 4%positive;
                     ContentCrud.search := None |} sixDb) with
     | Ok listing => ContentCrud.content listing
     | Throw _ => []
     end)
  = [2%positive; 1%positive].
Proof. vm_compute. reflexivity. Qed.

Example trending_of_six :
  map AnalyticsService.tr_id
    (match fst (AnalyticsService.getTrendingService sixDb) with
     | Ok listing => listing
     | Throw _ => []
     end)
  = [6%positive; 5%positive; 4%positive; 3%positive; 2%positive].
Proof. vm_compute. reflexivity. Qed.

Example like_then_unlike :
  LikesAndComments.toggleLikeService "alice" 1 helloDb
  = (Ok {| LikesAndComments.liked := false |},
     Schema.with_contents (alter (Schema.inc_likes (-1)) 1%positive)
       (Schema.with_likes (delete 1%positive) helloDb)).
Proof. vm_compute. reflexivity. Qed.

Section WordCount_formula.
Context `{Tokenizer} `{Extractor}.
Import ContentService Props.

(** X25: the word count of an analysis is the number of pieces of the
    split of the article text at whitespace: its non-empty tokens, one
    more when the text is empty or starts with whitespace, and one more
    when it ends with whitespace; it is 0 when there is no article. *)
Theorem wordCount_formula (textBody : string) (w : World) :
  exists r w',
    performContentAnalysis textBody w = (Ok r, w')
    /\ wordCount r
       = match readability_parse ("<body>" ++ textBody ++ "</body>")%string with
         | Some text =>
             length (nonEmptyTokens text)
             + (if String.eqb text EmptyString || starts_ws text then 1 else 0)
             + (if ends_ws text then 1 else 0)
         | None => 0
         end.
Proof.
  destruct (performContentAnalysis_run textBody w)
    as (r & w' & Hrun & Hwc & _).
  exists r, w'. split; [exact Hrun|]. rewrite Hwc.
  destruct (readability_parse _) as [text|]; [|reflexivity].
  apply length_split_ws.
Qed.

End WordCount_formula.
